(** * AI Notes Summarizer: the session controller of [frontend/src/App.js]

    A shallow embedding of the React component [App]: its state hooks, its
    event handlers ([showAlert], [handleFileUpload], [handleGenerateSummary],
    [handleUpdateSummary], [handleSendEmail], [clearAll]), the triggers the
    JSX renders and disables, and the environment the handlers talk to
    (pending [fetch] requests, [setTimeout] timers, the console, the
    location bar). *)

From Stdlib Require Import String Ascii NArith Bool Arith Lia List.
Import ListNotations.

(** ** JavaScript strings

    A JavaScript string is a sequence of UTF-16 code units.  The library
    functions the component calls on strings are written out after
    ECMA-262: [String.prototype.trim], [String.prototype.endsWith],
    truthiness, [||] and [encodeURIComponent]. *)

Module JS.

Definition jsstring := list N.

(** An ASCII literal of the source, as code units. *)
Definition lit (s : string) : jsstring :=
  map N_of_ascii (list_ascii_of_string s).
Arguments lit : simpl never.

Fixpoint eqb (a b : jsstring) : bool :=
  match a, b with
  | [], [] => true
  | x :: a', y :: b' => N.eqb x y && eqb a' b'
  | _, _ => false
  end.

(** [ToBoolean] on a string: only the empty string is falsy. *)
Definition truthy (s : jsstring) : bool :=
  match s with [] => false | _ :: _ => true end.

(** [a || b] on strings. *)
Definition or_else (a b : jsstring) : jsstring :=
  if truthy a then a else b.

(** WhiteSpace and LineTerminator code units (ECMA-262 12.2 and 12.3):
    TAB, LF, VT, FF, CR, SP, NBSP, the Unicode space separators, LS, PS
    and ZWNBSP. *)
Definition is_white_space (c : N) : bool :=
  ((9 <=? c) && (c <=? 13) || (c =? 32) || (c =? 160) || (c =? 5760)
   || (8192 <=? c) && (c <=? 8202) || (c =? 8232) || (c =? 8233)
   || (c =? 8239) || (c =? 8287) || (c =? 12288) || (c =? 65279))%N.

Fixpoint trimStart (s : jsstring) : jsstring :=
  match s with
  | c :: s' => if is_white_space c then trimStart s' else s
  | [] => []
  end.

Definition trimEnd (s : jsstring) : jsstring :=
  rev (trimStart (rev s)).

Definition trim (s : jsstring) : jsstring :=
  trimEnd (trimStart s).

(** [s.endsWith(search)]: the last [length search] code units of [s] are
    compared with [search]; a longer [search] never matches. *)
Definition endsWith (s search : jsstring) : bool :=
  if length search <=? length s
  then eqb (skipn (length s - length search) s) search
  else false.

(** *** [encodeURIComponent] (ECMA-262 19.2.6.5, [Encode]) *)

Definition in_range (lo hi c : N) : bool := ((lo <=? c) && (c <=? hi))%N.

(** uriUnescaped: letters, digits and the marks [- _ . ! ~ * ' ( )]. *)
Definition uri_unescaped (c : N) : bool :=
  in_range 65 90 c || in_range 97 122 c || in_range 48 57 c
  || existsb (N.eqb c) (lit "-_.!~*'()").

Definition is_leading_surrogate (c : N) : bool := in_range 55296 56319 c.
Definition is_trailing_surrogate (c : N) : bool := in_range 56320 57343 c.

Definition surrogate_pair_to_code_point (lead trail : N) : N :=
  ((lead - 55296) * 1024 + (trail - 56320) + 65536)%N.

Definition utf8_octets (cp : N) : list N :=
  (if cp <? 128 then [cp]
   else if cp <? 2048 then [192 + cp / 64; 128 + cp mod 64]
   else if cp <? 65536 then
     [224 + cp / 4096; 128 + (cp / 64) mod 64; 128 + cp mod 64]
   else
     [240 + cp / 262144; 128 + (cp / 4096) mod 64;
      128 + (cp / 64) mod 64; 128 + cp mod 64])%N.

Definition hex_digit (n : N) : N :=
  (if n <? 10 then 48 + n else 55 + n)%N.

Definition percent_escape (octet : N) : jsstring :=
  [37%N; hex_digit (octet / 16); hex_digit (octet mod 16)].

Definition escape_code_point (cp : N) : jsstring :=
  flat_map percent_escape (utf8_octets cp).

(** [None] is the [URIError] thrown on an unpaired surrogate. *)
Fixpoint encodeURIComponent (s : jsstring) : option jsstring :=
  match s with
  | [] => Some []
  | c :: rest =>
      if uri_unescaped c then option_map (cons c) (encodeURIComponent rest)
      else if is_trailing_surrogate c then None
      else if is_leading_surrogate c then
        match rest with
        | d :: rest' =>
            if is_trailing_surrogate d
            then option_map
                   (fun r => escape_code_point (surrogate_pair_to_code_point c d) ++ r)
                   (encodeURIComponent rest')
            else None
        | [] => None
        end
      else option_map (fun r => escape_code_point c ++ r)
                      (encodeURIComponent rest)
  end.

End JS.

Import JS.

(** ** The component state: the [useState] hooks of [App] *)

Record Alert := {
  show : bool;
  type : jsstring;
  message : jsstring
}.

(** [inputMethod] only ever holds ['paste'] or ['upload']. *)
Inductive InputMethod := paste | upload.

Record AppState := {
  transcript : jsstring;
  customPrompt : jsstring;
  summary : jsstring;
  summaryId : jsstring;
  fileName : jsstring;
  loading : bool;
  alert : Alert;
  recipientEmails : jsstring;
  editMode : bool;
  inputMethod : InputMethod
}.

Definition no_alert : Alert :=
  {| show := false; type := lit ""; message := lit "" |}.

(** The arguments of the [useState] calls. *)
Definition initial : AppState :=
  {| transcript := lit ""; customPrompt := lit ""; summary := lit "";
     summaryId := lit ""; fileName := lit ""; loading := false;
     alert := no_alert; recipientEmails := lit ""; editMode := false;
     inputMethod := paste |}.

(** ** The environment of the handlers *)

(** A file picked in the file input: its name and its bytes. *)
Record File := {
  name : jsstring;
  content : list N
}.

(** The three [fetch] calls, with what each one sends. *)
Inductive Request :=
| UploadTranscript (file : File)
| GenerateSummary (body_transcript body_custom_prompt : jsstring)
| UpdateSummary (body_summary_id body_updated_summary : jsstring).

Record JSError := { error_message : jsstring }.

(** The JSON body of a reply, with the fields the handlers read, typed as
    the interface of the services gives them: [success] a boolean, the
    others strings; an absent [detail] is the empty string, which [||]
    treats alike.  The component stores [transcript], [summary] and
    [summary_id] as they come, without a check: a reply with another kind
    of JSON value in one of them is outside this model (a later [.trim()]
    on it would raise a [TypeError]). *)
Record Data := {
  data_success : bool;
  data_detail : jsstring;
  data_transcript : jsstring;
  data_summary : jsstring;
  data_summary_id : jsstring
}.

(** How [await fetch(...)] followed by [await response.json()] ends: one of
    the two promises rejects, or a reply with [response.ok] and its body
    arrives. *)
Inductive Outcome :=
| Rejected (e : JSError)
| Fulfilled (ok : bool) (data : Data).

(** The rest of an [async] handler, suspended at its [await]. *)
Inductive Continuation :=
| AfterUpload (file : File)
| AfterGenerate
| AfterUpdate.

Inductive Effect :=
| Fetch (r : Request)
| ConsoleError (label : jsstring) (e : JSError)
| Navigate (href : jsstring).

(** The component in its environment: the hooks, the time in milliseconds,
    the due times of the pending [setTimeout] callbacks (each one is
    [() => setAlert({ show: false, type: '', message: '' })]), the
    suspended handlers in the order their requests were issued, and what
    the handlers did to the outside so far. *)
Record World := {
  state : AppState;
  clock : N;
  timers : list N;
  inflight : list Continuation;
  effects : list Effect
}.

Definition boot : World :=
  {| state := initial; clock := 0%N; timers := []; inflight := []; effects := [] |}.

(** ** Handlers as state transformers that may throw *)

Inductive Completion (A : Type) :=
| Normal (a : A)
| Throw (e : JSError).
Arguments Normal {A} a.
Arguments Throw {A} e.

Definition M (A : Type) : Type := World -> Completion A * World.

Definition ret {A} (a : A) : M A := fun w => (Normal a, w).

Definition bind {A B} (m : M A) (k : A -> M B) : M B :=
  fun w =>
    match m w with
    | (Normal a, w') => k a w'
    | (Throw e, w') => (Throw e, w')
    end.

Definition throw {A} (e : JSError) : M A := fun w => (Throw e, w).

Declare Scope js_scope.
Delimit Scope js_scope with js.
Notation "x <- m ;; k" := (bind m (fun x => k))
  (at level 61, m at next level, right associativity) : js_scope.
Notation "m ;; k" := (bind m (fun _ => k))
  (at level 61, right associativity) : js_scope.
Open Scope js_scope.

(** [try { body } catch (error) { handler error } finally { fin }] *)
Definition try_catch_finally (body : M unit) (handler : JSError -> M unit)
    (fin : M unit) : M unit :=
  fun w =>
    let (r1, w1) := body w in
    let (r2, w2) :=
      match r1 with
      | Normal _ => (r1, w1)
      | Throw e => handler e w1
      end in
    let (r3, w3) := fin w2 in
    match r3 with
    | Normal _ => (r2, w3)
    | Throw e => (Throw e, w3)
    end.

Definition update (f : AppState -> AppState) : M unit :=
  fun w =>
    (Normal tt,
     {| state := f (state w); clock := clock w; timers := timers w;
        inflight := inflight w; effects := effects w |}).

Definition perform (e : Effect) : M unit :=
  fun w =>
    (Normal tt,
     {| state := state w; clock := clock w; timers := timers w;
        inflight := inflight w; effects := effects w ++ [e] |}).

(** [setTimeout(callback, ms)] with the alert-clearing callback. *)
Definition setTimeout (ms : N) : M unit :=
  fun w =>
    (Normal tt,
     {| state := state w; clock := clock w; timers := timers w ++ [(clock w + ms)%N];
        inflight := inflight w; effects := effects w |}).

(** [await fetch(...)]: the request leaves and the handler is suspended. *)
Definition fetch (r : Request) (k : Continuation) : M unit :=
  fun w =>
    (Normal tt,
     {| state := state w; clock := clock w; timers := timers w;
        inflight := inflight w ++ [k]; effects := effects w ++ [Fetch r] |}).

(** The state setters. *)

Definition setTranscript (v : jsstring) : M unit :=
  update (fun s =>
    {| transcript := v; customPrompt := customPrompt s; summary := summary s;
       summaryId := summaryId s; fileName := fileName s; loading := loading s;
       alert := alert s; recipientEmails := recipientEmails s;
       editMode := editMode s; inputMethod := inputMethod s |}).

Definition setCustomPrompt (v : jsstring) : M unit :=
  update (fun s =>
    {| transcript := transcript s; customPrompt := v; summary := summary s;
       summaryId := summaryId s; fileName := fileName s; loading := loading s;
       alert := alert s; recipientEmails := recipientEmails s;
       editMode := editMode s; inputMethod := inputMethod s |}).

Definition setSummary (v : jsstring) : M unit :=
  update (fun s =>
    {| transcript := transcript s; customPrompt := customPrompt s; summary := v;
       summaryId := summaryId s; fileName := fileName s; loading := loading s;
       alert := alert s; recipientEmails := recipientEmails s;
       editMode := editMode s; inputMethod := inputMethod s |}).

Definition setSummaryId (v : jsstring) : M unit :=
  update (fun s =>
    {| transcript := transcript s; customPrompt := customPrompt s;
       summary := summary s; summaryId := v; fileName := fileName s;
       loading := loading s; alert := alert s;
       recipientEmails := recipientEmails s; editMode := editMode s;
       inputMethod := inputMethod s |}).

Definition setFileName (v : jsstring) : M unit :=
  update (fun s =>
    {| transcript := transcript s; customPrompt := customPrompt s;
       summary := summary s; summaryId := summaryId s; fileName := v;
       loading := loading s; alert := alert s;
       recipientEmails := recipientEmails s; editMode := editMode s;
       inputMethod := inputMethod s |}).

Definition setLoading (v : bool) : M unit :=
  update (fun s =>
    {| transcript := transcript s; customPrompt := customPrompt s;
       summary := summary s; summaryId := summaryId s; fileName := fileName s;
       loading := v; alert := alert s; recipientEmails := recipientEmails s;
       editMode := editMode s; inputMethod := inputMethod s |}).

Definition setAlert (v : Alert) : M unit :=
  update (fun s =>
    {| transcript := transcript s; customPrompt := customPrompt s;
       summary := summary s; summaryId := summaryId s; fileName := fileName s;
       loading := loading s; alert := v; recipientEmails := recipientEmails s;
       editMode := editMode s; inputMethod := inputMethod s |}).

Definition setRecipientEmails (v : jsstring) : M unit :=
  update (fun s =>
    {| transcript := transcript s; customPrompt := customPrompt s;
       summary := summary s; summaryId := summaryId s; fileName := fileName s;
       loading := loading s; alert := alert s; recipientEmails := v;
       editMode := editMode s; inputMethod := inputMethod s |}).

Definition setEditMode (v : bool) : M unit :=
  update (fun s =>
    {| transcript := transcript s; customPrompt := customPrompt s;
       summary := summary s; summaryId := summaryId s; fileName := fileName s;
       loading := loading s; alert := alert s;
       recipientEmails := recipientEmails s; editMode := v;
       inputMethod := inputMethod s |}).

Definition setInputMethod (v : InputMethod) : M unit :=
  update (fun s =>
    {| transcript := transcript s; customPrompt := customPrompt s;
       summary := summary s; summaryId := summaryId s; fileName := fileName s;
       loading := loading s; alert := alert s;
       recipientEmails := recipientEmails s; editMode := editMode s;
       inputMethod := v |}).

(** ** The handlers of [App]

    A handler is a closure of the render in which it was created: it reads
    the state [c] of that render, and its setters act on the current state.
    An [async] handler is split at its [await]: the part that runs at the
    event, and the part that runs when the request settles. *)

Definition showAlert (type message : jsstring) : M unit :=
  setAlert {| show := true; type := type; message := message |} ;;
  setTimeout 4000%N.

Definition console_error (label : jsstring) (e : JSError) : M unit :=
  perform (ConsoleError label e).

(** [response.json()] of a settled request: a rejection is thrown at the
    [await]. *)
Definition await (o : Outcome) : M (bool * Data) :=
  match o with
  | Rejected e => throw e
  | Fulfilled ok data => ret (ok, data)
  end.

Definition handleFileUpload (files0 : option File) : M unit :=
  match files0 with
  | None => ret tt
  | Some file =>
      if negb (endsWith (name file) (lit ".txt")) then
        showAlert (lit "error") (lit "Please upload a .txt file only")
      else
        setLoading true ;;
        fetch (UploadTranscript file) (AfterUpload file)
  end.

Definition handleFileUpload_settled (file : File) (o : Outcome) : M unit :=
  try_catch_finally
    (r <- await o ;;
     let (ok, data) := r in
     if ok && data_success data then
       setTranscript (data_transcript data) ;;
       setFileName (name file) ;;
       showAlert (lit "success") (lit "Transcript uploaded successfully!")
     else
       throw {| error_message := or_else (data_detail data) (lit "Upload failed") |})
    (fun error =>
       console_error (lit "Upload error:") error ;;
       showAlert (lit "error")
         (or_else (error_message error) (lit "Failed to upload transcript")))
    (setLoading false).

Definition handleGenerateSummary (c : AppState) : M unit :=
  if negb (truthy (trim (transcript c))) then
    showAlert (lit "error") (lit "Please provide a transcript first")
  else if negb (truthy (trim (customPrompt c))) then
    showAlert (lit "error") (lit "Please enter a custom instruction")
  else
    setLoading true ;;
    fetch (GenerateSummary (transcript c) (customPrompt c)) AfterGenerate.

Definition handleGenerateSummary_settled (o : Outcome) : M unit :=
  try_catch_finally
    (r <- await o ;;
     let (ok, data) := r in
     if ok && data_success data then
       setSummary (data_summary data) ;;
       setSummaryId (data_summary_id data) ;;
       setEditMode true ;;
       showAlert (lit "success") (lit "Summary generated successfully!")
     else
       throw {| error_message :=
                  or_else (data_detail data) (lit "Summary generation failed") |})
    (fun error =>
       console_error (lit "Summary generation error:") error ;;
       showAlert (lit "error")
         (or_else (error_message error) (lit "Failed to generate summary")))
    (setLoading false).

Definition handleUpdateSummary (c : AppState) : M unit :=
  if negb (truthy (summaryId c)) || negb (truthy (trim (summary c))) then
    ret tt
  else
    setLoading true ;;
    fetch (UpdateSummary (summaryId c) (summary c)) AfterUpdate.

Definition handleUpdateSummary_settled (o : Outcome) : M unit :=
  try_catch_finally
    (r <- await o ;;
     let (ok, data) := r in
     if ok && data_success data then
       showAlert (lit "success") (lit "Summary updated successfully!") ;;
       setEditMode false
     else
       throw {| error_message := or_else (data_detail data) (lit "Update failed") |})
    (fun error =>
       console_error (lit "Update error:") error ;;
       showAlert (lit "error")
         (or_else (error_message error) (lit "Failed to update summary")))
    (setLoading false).

Definition URIError : JSError := {| error_message := lit "URI malformed" |}.

Definition encodeURIComponent (s : jsstring) : M jsstring :=
  match JS.encodeURIComponent s with
  | Some r => ret r
  | None => throw URIError
  end.

Definition newline : jsstring := [10%N].

(** The template literal of the mail body. *)
Definition mail_body (summary : jsstring) : jsstring :=
  lit "Hi," ++ newline ++ newline ++
  lit "Please find the meeting summary below:" ++ newline ++ newline ++
  summary ++ newline ++ newline ++ lit "Best regards".

Definition handleSendEmail (c : AppState) : M unit :=
  if negb (truthy (trim (summary c))) then
    showAlert (lit "error") (lit "No summary to send")
  else if editMode c then
    showAlert (lit "error") (lit "Please save your edits before sending")
  else
    subject <- encodeURIComponent (lit "Meeting Summary") ;;
    body <- encodeURIComponent (mail_body (summary c)) ;;
    let recipients :=
      if truthy (recipientEmails c)
      then lit "?subject=" ++ subject ++ lit "&body=" ++ body
      else lit "?subject=" ++ subject ++ lit "&body=" ++ body in
    perform (Navigate (lit "mailto:" ++ recipientEmails c ++ recipients)) ;;
    showAlert (lit "success") (lit "Email client opened with summary").

Definition clearAll : M unit :=
  setTranscript (lit "") ;;
  setSummary (lit "") ;;
  setCustomPrompt (lit "") ;;
  setFileName (lit "") ;;
  setSummaryId (lit "") ;;
  setEditMode false ;;
  setRecipientEmails (lit "").

Definition promptExamples : list jsstring :=
  [ lit "Summarize in bullet points for executives";
    lit "Extract key action items and deadlines";
    lit "Create executive summary with decisions";
    lit "List main discussion points and next steps" ].

(** ** The rendered triggers and the event loop *)

Inductive Event :=
| TranscriptChange (value : jsstring)
| InputMethodClick (m : InputMethod)
| FileChange (files0 : option File)
| PromptChange (value : jsstring)
| TemplateClick (index : nat)
| GenerateClick
| ClearClick
| EditSaveClick
| SummaryChange (value : jsstring)
| RecipientsChange (value : jsstring)
| SendClick
| Settle (i : nat) (o : Outcome)
| Elapse (ms : N).

(** What the JSX offers in a render of state [s]: the element is rendered
    and not [disabled] (or [readOnly]).  A request can settle when it is
    pending; time can always pass. *)
Definition enabled (w : World) (e : Event) : bool :=
  let s := state w in
  match e with
  | TranscriptChange _ =>
      match inputMethod s with paste => true | upload => false end
  | InputMethodClick _ => true
  | FileChange _ =>
      match inputMethod s with paste => false | upload => true end
  | PromptChange _ => true
  | TemplateClick index => index <? length promptExamples
  | GenerateClick =>
      negb (loading s || negb (truthy (transcript s))
            || negb (truthy (customPrompt s)))
  | ClearClick => true
  | EditSaveClick => truthy (summary s) && negb (loading s)
  | SummaryChange _ => truthy (summary s) && negb (negb (editMode s))
  | RecipientsChange _ => truthy (summary s)
  | SendClick => truthy (summary s) && negb (editMode s)
  | Settle i _ => i <? length (inflight w)
  | Elapse _ => true
  end.

(** Take the [i]-th suspended handler out of the pending ones. *)
Definition resume (i : nat) : M (option Continuation) :=
  fun w =>
    (Normal (nth_error (inflight w) i),
     {| state := state w; clock := clock w; timers := timers w;
        inflight := firstn i (inflight w) ++ skipn (S i) (inflight w);
        effects := effects w |}).

Definition hideAlert : M unit := setAlert no_alert.

(** [ms] milliseconds pass: every timer that has come due runs its
    callback and is gone. *)
Definition elapse (ms : N) : M unit :=
  fun w =>
    let now := (clock w + ms)%N in
    let due := filter (fun t => (t <=? now)%N) (timers w) in
    fold_right (fun _ rest => hideAlert ;; rest) (ret tt) due
      {| state := state w; clock := now;
         timers := filter (fun t => (now <? t)%N) (timers w);
         inflight := inflight w; effects := effects w |}.

(** A suspended handler goes on with the outcome of its request. *)
Definition continue (k : Continuation) (o : Outcome) : M unit :=
  match k with
  | AfterUpload file => handleFileUpload_settled file o
  | AfterGenerate => handleGenerateSummary_settled o
  | AfterUpdate => handleUpdateSummary_settled o
  end.

Definition dispatch (e : Event) (c : AppState) : M unit :=
  match e with
  | TranscriptChange value => setTranscript value
  | InputMethodClick m => setInputMethod m
  | FileChange files0 => handleFileUpload files0
  | PromptChange value => setCustomPrompt value
  | TemplateClick index => setCustomPrompt (nth index promptExamples (lit ""))
  | GenerateClick => handleGenerateSummary c
  | ClearClick => clearAll
  | EditSaveClick =>
      if editMode c then handleUpdateSummary c else setEditMode true
  | SummaryChange value => setSummary value
  | RecipientsChange value => setRecipientEmails value
  | SendClick => handleSendEmail c
  | Settle i o =>
      k <- resume i ;;
      match k with
      | Some k => continue k o
      | None => ret tt
      end
  | Elapse ms => elapse ms
  end.

(** Run a handler to its end; an exception that escapes it is reported by
    the browser and leaves the state as the handler left it. *)
Definition exec (m : M unit) (w : World) : World := snd (m w).

Definition step (w : World) (e : Event) : option World :=
  if enabled w e then Some (exec (dispatch e (state w)) w) else None.

Fixpoint run (w : World) (es : list Event) : option World :=
  match es with
  | [] => Some w
  | e :: es' =>
      match step w e with
      | Some w' => run w' es'
      | None => None
      end
  end.

(** ** Notions used in the statements *)

(** The session fields of the specification, at their initial values. *)
Definition session_is_initial (s : AppState) : Prop :=
  transcript s = transcript initial /\
  customPrompt s = customPrompt initial /\
  fileName s = fileName initial /\
  summary s = summary initial /\
  summaryId s = summaryId initial /\
  editMode s = editMode initial /\
  loading s = loading initial /\
  alert s = alert initial.

(** A session in which a notification is up and a request is pending: a
    blank transcript is refused, then a proper one is submitted. *)
Definition generating_events : list Event :=
  [ TranscriptChange (lit " "); PromptChange (lit "List action items");
    GenerateClick;
    TranscriptChange (lit "Team discussed Q3 roadmap."); GenerateClick ].

Definition generating : World :=
  match run boot generating_events with
  | Some w => w
  | None => boot
  end.

(** The object literal [{ show: true, type, message }] of [showAlert]. *)
Definition shown (type message : jsstring) : Alert :=
  {| show := true; type := type; message := message |}.

Definition notes_txt : File :=
  {| name := lit "notes.txt"; content := lit "Team discussed Q3 roadmap." |}.

Definition notes_pdf : File :=
  {| name := lit "notes.pdf"; content := [37; 80; 68; 70]%N |}.

Definition notes_TXT : File :=
  {| name := lit "NOTES.TXT"; content := [] |}.

Definition upload_reply : Data :=
  {| data_success := true; data_detail := lit "";
     data_transcript := lit "Team discussed Q3 roadmap.";
     data_summary := lit ""; data_summary_id := lit "" |}.

(** A session whose transcript came from an uploaded file, back on the
    paste tab. *)
Definition uploaded_events : list Event :=
  [ InputMethodClick upload; FileChange (Some notes_txt);
    Settle 0 (Fulfilled true upload_reply); InputMethodClick paste ].

Definition uploaded : World :=
  match run boot uploaded_events with
  | Some w => w
  | None => boot
  end.

(** The component state with only its notification replaced. *)
Definition with_alert (a : Alert) (s : AppState) : AppState :=
  {| transcript := transcript s; customPrompt := customPrompt s;
     summary := summary s; summaryId := summaryId s; fileName := fileName s;
     loading := loading s; alert := a; recipientEmails := recipientEmails s;
     editMode := editMode s; inputMethod := inputMethod s |}.

(** The world after exactly one notification and nothing else: the alert
    is replaced and its timer is set; no other field, no request, no
    effect. *)
Definition notified (type message : jsstring) (w : World) : World :=
  {| state := with_alert (shown type message) (state w); clock := clock w;
     timers := timers w ++ [(clock w + 4000)%N];
     inflight := inflight w; effects := effects w |}.

Definition white (s : jsstring) : Prop :=
  Forall (fun c => is_white_space c = true) s.

(** The requests sent so far, in order. *)
Definition requests (w : World) : list Request :=
  flat_map (fun e => match e with Fetch r => [r] | _ => [] end) (effects w).

(** The mailto links opened so far, in order. *)
Definition dispatches (w : World) : list jsstring :=
  flat_map (fun e => match e with Navigate href => [href] | _ => [] end)
           (effects w).

(** A request that did not succeed: a promise was rejected (transport
    failure, unreadable body), or the reply is not [ok] with [success]. *)
Definition failed (o : Outcome) : Prop :=
  match o with
  | Rejected _ => True
  | Fulfilled ok data => ok && data_success data = false
  end.

Definition generate_reply : Data :=
  {| data_success := true; data_detail := lit "";
     data_transcript := lit "";
     data_summary := lit "- Ship v2"; data_summary_id := lit "s1" |}.

Definition update_reply : Data :=
  {| data_success := true; data_detail := lit "";
     data_transcript := lit ""; data_summary := lit "";
     data_summary_id := lit "" |}.

Definition update_refusal : Data :=
  {| data_success := false; data_detail := lit "Summary not found";
     data_transcript := lit ""; data_summary := lit "";
     data_summary_id := lit "" |}.

(** A session in which summary [s1] was generated and then edited. *)
Definition editing_events : list Event :=
  [ TranscriptChange (lit "Team discussed Q3 roadmap.");
    PromptChange (lit "List action items"); GenerateClick;
    Settle 0 (Fulfilled true generate_reply);
    SummaryChange (lit "edited text") ].

Definition editing : World :=
  match run boot editing_events with
  | Some w => w
  | None => boot
  end.

(** The same session after the edit is saved. *)
Definition reviewing : World :=
  match run editing [EditSaveClick; Settle 0 (Fulfilled true update_reply)] with
  | Some w => w
  | None => boot
  end.

(** A session whose summary is blanked while its save is under way: the
    save succeeds and leaves a summary of one space out of edit mode. *)
Definition blank_saved : World :=
  match run editing [ EditSaveClick; SummaryChange (lit " ");
                      Settle 0 (Fulfilled true update_reply) ] with
  | Some w => w
  | None => boot
  end.

(** The percent-encoded mail body around the percent-encoded summary. *)
Definition encoded_mail_body (encoded_summary : jsstring) : jsstring :=
  lit "Hi%2C%0A%0APlease%20find%20the%20meeting%20summary%20below%3A%0A%0A"
  ++ encoded_summary ++ lit "%0A%0ABest%20regards".

Definition mailto (recipients encoded_summary : jsstring) : jsstring :=
  lit "mailto:" ++ recipients ++ lit "?subject=Meeting%20Summary&body="
  ++ encoded_mail_body encoded_summary.

(** The triggers of the operations of the specification: generate, save,
    send, upload and clear. *)
Definition mutating (e : Event) : bool :=
  match e with
  | GenerateClick | EditSaveClick | SendClick | FileChange _ | ClearClick => true
  | _ => false
  end.

(** The reading of the busy flag as the sole guard: in every state the
    component reaches with [loading] set, no trigger of an operation is
    offered and at most one request is pending. *)
Definition busy_blocks_every_trigger : Prop :=
  forall es w,
    run boot es = Some w ->
    loading (state w) = true ->
    (forall e, mutating e = true -> enabled w e = false) /\
    length (inflight w) <= 1.

(** The events that send an upload request. *)
Definition starts_upload (e : Event) : bool :=
  match e with
  | FileChange (Some file) => endsWith (name file) (lit ".txt")
  | _ => false
  end.

(** One request pending exactly when [loading] is set. *)
Definition single_flight (w : World) : Prop :=
  length (inflight w) = if loading (state w) then 1 else 0.




(** Two refused submissions, 3000 ms apart. *)
Definition first_refusal_events : list Event :=
  [ TranscriptChange (lit " "); PromptChange (lit " "); GenerateClick;
    Elapse 3000%N; TranscriptChange (lit "Team discussed Q3 roadmap.") ].

Definition first_refusal : World :=
  match run boot first_refusal_events with
  | Some w => w
  | None => boot
  end.

Definition second_refusal : World :=
  exec (handleGenerateSummary (state first_refusal)) first_refusal.


(** The world once the [i]-th suspended handler is taken out. *)
Definition resumed (i : nat) (w : World) : World := snd (resume i w).

(** ** Notions used in the further properties *)

(** Nothing but white space (the empty string included). *)
Definition blank (s : jsstring) : bool := forallb is_white_space s.

(** The world once a handler has set [loading] and sent the request [r],
    to go on as [k] when it settles. *)
Definition sending (r : Request) (k : Continuation) (w : World) : World :=
  exec (setLoading true ;; fetch r k) w.

(** A session with a transcript and an instruction typed in. *)
Definition drafted : World :=
  exec (setCustomPrompt (lit "List action items"))
       (exec (setTranscript (lit "Team discussed Q3 roadmap.")) boot).

(** The body of a reply that is a success: [response.ok] and
    [data.success] both hold. *)
Definition reply (o : Outcome) : option Data :=
  match o with
  | Fulfilled true data => if data_success data then Some data else None
  | _ => None
  end.

(** The text of the error notification after a request that did not
    succeed: the message of the rejection, or the [detail] of the reply,
    when there is one; else the fixed text of the handler for that case. *)
Definition failure_text (o : Outcome) (remote transport : jsstring) : jsstring :=
  match o with
  | Rejected e => or_else (error_message e) transport
  | Fulfilled _ data => or_else (data_detail data) remote
  end.

(** A notification as the component shows them: of type error or success,
    with a text. *)
Definition proper_alert (a : Alert) : Prop :=
  a = no_alert \/
  exists ty msg,
    a = shown ty msg /\ (ty = lit "error" \/ ty = lit "success") /\
    msg <> lit "".

(** From [w] to [w'] one notification was shown: its timer is set and a
    proper alert is up. *)
Definition shows (w w' : World) : Prop :=
  timers w' = timers w ++ [(clock w + 4000)%N] /\
  exists ty msg,
    alert (state w') = shown ty msg /\
    (ty = lit "error" \/ ty = lit "success") /\ msg <> lit "".

Definition keeps_alert (w w' : World) : Prop :=
  timers w' = timers w /\ alert (state w') = alert (state w).

Definition keeps_flight (w w' : World) : Prop :=
  loading (state w') = loading (state w) /\ inflight w' = inflight w /\
  requests w' = requests w.

(** What the handlers may send: a file whose name ends in [.txt]; a
    transcript and an instruction that are not blank; a summary that is
    not blank, under an id that is not empty. *)
Definition valid_request (r : Request) : Prop :=
  match r with
  | UploadTranscript file => endsWith (name file) (lit ".txt") = true
  | GenerateSummary t p => blank t = false /\ blank p = false
  | UpdateSummary id s => id <> lit "" /\ blank s = false
  end.

(** The four things an event other than the passing of time can do:
    nothing to the notification or the requests; show one notification;
    send one valid request, setting [loading]; settle one pending request,
    showing one notification and clearing [loading]. *)
Definition one_of_four (w w' : World) : Prop :=
  (keeps_alert w w' /\ keeps_flight w w') \/
  (shows w w' /\ keeps_flight w w') \/
  (keeps_alert w w' /\ loading (state w') = true /\
   exists r k, valid_request r /\ requests w' = requests w ++ [r] /\
               inflight w' = inflight w ++ [k]) \/
  (shows w w' /\ loading (state w') = false /\ requests w' = requests w /\
   exists i, i < length (inflight w) /\
             inflight w' = firstn i (inflight w) ++ skipn (S i) (inflight w)).

(** The pending timers fall within the next 4000 ms, and without a timer
    no notification is up. *)
Definition timers_bounded (w : World) : Prop :=
  Forall (fun t => (clock w < t <= clock w + 4000)%N) (timers w) /\
  (timers w = [] -> alert (state w) = no_alert).

(** A code unit that needs no escape in a URI component, or the percent
    sign of an escape. *)
Definition url_safe (c : N) : Prop := uri_unescaped c = true \/ c = 37%N.

(** A reviewed summary with an unpaired surrogate in it. *)
Definition broken_summary : World := exec (setSummary [55357%N]) reviewing.

(** The events that only edit a field: typing, choosing a tab or a
    template, clearing. *)
Definition edits_only (e : Event) : bool :=
  match e with
  | TranscriptChange _ | InputMethodClick _ | PromptChange _
  | TemplateClick _ | ClearClick | SummaryChange _ | RecipientsChange _ => true
  | _ => false
  end.

(** Every upload of the run from [w] is started while [loading] is not
    set. *)
Fixpoint uploads_start_idle (w : World) (es : list Event) : bool :=
  match es with
  | [] => true
  | e :: es' =>
      (negb (starts_upload e) || negb (loading (state w)))
      && match step w e with
         | Some w' => uploads_start_idle w' es'
         | None => true
         end
  end.

(** A whole session: a transcript is uploaded, a summary is generated from
    it, and its save is under way. *)
Definition saving_events : list Event :=
  [ InputMethodClick upload; FileChange (Some notes_txt);
    Settle 0 (Fulfilled true upload_reply);
    PromptChange (lit "List action items"); GenerateClick;
    Settle 0 (Fulfilled true generate_reply); EditSaveClick ].

Definition saving : World :=
  match run boot saving_events with
  | Some w => w
  | None => boot
  end.

(** * Properties *)

(** ** Sanity checks of the string functions *)

Example trim_example :
  trim (lit "  List action items ") = lit "List action items".
Proof. reflexivity. Qed.

Example endsWith_example :
  endsWith (lit "notes.txt") (lit ".txt") = true /\
  endsWith (lit "notes.TXT") (lit ".txt") = false /\
  endsWith (lit "txt") (lit ".txt") = false.
Proof. repeat split; reflexivity. Qed.

Example encodeURIComponent_example :
  JS.encodeURIComponent (lit "Meeting Summary") = Some (lit "Meeting%20Summary") /\
  JS.encodeURIComponent [233%N; 10%N; 8364%N] = Some (lit "%C3%A9%0A%E2%82%AC") /\
  JS.encodeURIComponent [55357%N; 56832%N] = Some (lit "%F0%9F%98%80") /\
  JS.encodeURIComponent [55357%N] = None.
Proof. repeat split; reflexivity. Qed.

Lemma truthy_false_iff (s : jsstring) : truthy s = false <-> s = [].
Proof. destruct s; simpl; split; congruence. Qed.

Lemma truthy_true_iff (s : jsstring) : truthy s = true <-> s <> [].
Proof. destruct s; simpl; split; congruence. Qed.

Lemma trimStart_white (s : jsstring) :
  Forall (fun c => is_white_space c = true) s -> trimStart s = [].
Proof.
  induction 1 as [| c s Hc _ IH]; simpl.
  - reflexivity.
  - rewrite Hc. exact IH.
Qed.

(** A string of white space only trims to the empty string. *)
Lemma trim_white (s : jsstring) :
  Forall (fun c => is_white_space c = true) s -> trim s = [].
Proof.
  intros H. unfold trim, trimEnd.
  rewrite (trimStart_white _ H). reflexivity.
Qed.

Lemma trim_nonempty (s : jsstring) : trim s <> [] -> s <> [].
Proof. intros H E. subst s. apply H. reflexivity. Qed.

(** ** [clearAll] *)

Example generating_reached :
  run boot generating_events = Some generating /\
  loading (state generating) = true /\
  alert (state generating) =
    {| show := true; type := lit "error";
       message := lit "Please provide a transcript first" |} /\
  effects generating =
    [ Fetch (GenerateSummary (lit "Team discussed Q3 roadmap.")
                             (lit "List action items")) ].
Proof. vm_compute. repeat split. Qed.

(** C1, as stated, fails: [clearAll] in a session with a pending request
    and a notification leaves [loading] set and the notification up. *)
Lemma clearAll_keeps_loading_and_alert :
  loading (state (exec clearAll generating)) = true /\
  show (alert (state (exec clearAll generating))) = true /\
  ~ session_is_initial (state (exec clearAll generating)).
Proof.
  split; [reflexivity | split; [reflexivity |]].
  intros (_ & _ & _ & _ & _ & _ & Hl & _). vm_compute in Hl. discriminate.
Qed.

(** C1 (amended): for every prior state, [clearAll] returns normally and
    puts [transcript], [customPrompt], [fileName], [summary], [summaryId],
    [editMode] and [recipientEmails] back to their initial values; it
    leaves [loading], [alert] and [inputMethod] as they were, and touches
    neither the pending requests nor the timers. *)
Theorem clearAll_resets_data_fields (w : World) :
  let w' := exec clearAll w in
  fst (clearAll w) = Normal tt /\
  transcript (state w') = transcript initial /\
  customPrompt (state w') = customPrompt initial /\
  fileName (state w') = fileName initial /\
  summary (state w') = summary initial /\
  summaryId (state w') = summaryId initial /\
  editMode (state w') = editMode initial /\
  recipientEmails (state w') = recipientEmails initial /\
  loading (state w') = loading (state w) /\
  alert (state w') = alert (state w) /\
  inputMethod (state w') = inputMethod (state w) /\
  inflight w' = inflight w /\ timers w' = timers w /\
  effects w' = effects w /\ clock w' = clock w.
Proof. repeat split. Qed.

(** ** Resumed handlers, case by case *)

Lemma bind_ret {A B} (a : A) (k : A -> M B) : bind (ret a) k = k a.
Proof. reflexivity. Qed.

Lemma bind_throw {A B} (e : JSError) (k : A -> M B) :
  bind (throw e) k = throw e.
Proof. reflexivity. Qed.

Lemma or_else_nonempty (a b : jsstring) : b <> [] -> or_else a b <> [].
Proof. unfold or_else. destruct a; simpl; congruence. Qed.

Lemma requests_logged (w w' : World) (label : jsstring) (e : JSError) :
  effects w' = effects w ++ [ConsoleError label e] ->
  requests w' = requests w.
Proof.
  unfold requests. intros ->. rewrite flat_map_app. apply app_nil_r.
Qed.

(** The three ways a request can end, in a goal about the handler that is
    resumed: a rejected promise, a success, a reply that is not one. *)
Ltac outcome_cases o :=
  let e := fresh "e" in
  let ok := fresh "ok" in
  let data := fresh "data" in
  let E := fresh "E" in
  destruct o as [e | ok data];
  [ | destruct ok; [destruct (data_success data) eqn:E |] ];
  cbv [continue handleFileUpload_settled handleGenerateSummary_settled
       handleUpdateSummary_settled await];
  rewrite ?bind_ret, ?bind_throw; cbv beta iota;
  try rewrite E.

(** What is left to show once the outcome is fixed: a field by
    computation, the requests through the console log, the message of an
    error notification through its fallback. *)
Ltac settled :=
  repeat split;
  first [ reflexivity
        | eapply requests_logged; reflexivity
        | eexists; split; [| reflexivity];
          apply or_else_nonempty; discriminate ].

(** ** [showAlert] and the validation paths *)

Lemma showAlert_notified (ty msg : jsstring) (w : World) :
  showAlert ty msg w = (Normal tt, notified ty msg w).
Proof. reflexivity. Qed.

(** ** [handleUpdateSummary] without a summary id *)

(** C3, as stated, fails: with no summary id, saving shows nothing. *)
Lemma handleUpdateSummary_no_id_no_alert :
  summaryId (state boot) = lit "" /\
  show (alert (state (exec (handleUpdateSummary (state boot)) boot))) = false /\
  timers (exec (handleUpdateSummary (state boot)) boot) = [].
Proof. repeat split. Qed.

(** C3 (amended): in every state whose [summaryId] is empty,
    [handleUpdateSummary] returns at its guard: it completes normally,
    sends no request, shows no notification and changes nothing. *)
Theorem handleUpdateSummary_no_id_returns (w : World) :
  summaryId (state w) = lit "" ->
  handleUpdateSummary (state w) w = (Normal tt, w).
Proof.
  intros H. unfold handleUpdateSummary. rewrite H. reflexivity.
Qed.

Lemma handleUpdateSummary_no_id_returns_witness :
  summaryId (state generating) = lit "" /\
  handleUpdateSummary (state generating) generating = (Normal tt, generating).
Proof.
  split; [reflexivity |].
  apply (handleUpdateSummary_no_id_returns generating). reflexivity.
Defined.

(** ** The paste path *)

Example uploaded_reached :
  run boot uploaded_events = Some uploaded /\
  transcript (state uploaded) = lit "Team discussed Q3 roadmap." /\
  fileName (state uploaded) = lit "notes.txt" /\
  inputMethod (state uploaded) = paste /\
  loading (state uploaded) = false.
Proof. vm_compute. repeat split. Qed.

(** C4, as stated, fails: pasting over an uploaded transcript keeps the
    file name. *)
Lemma paste_keeps_fileName :
  step uploaded (TranscriptChange (lit "Pasted notes")) <> None /\
  fileName (state (exec (setTranscript (lit "Pasted notes")) uploaded))
    = lit "notes.txt" /\
  fileName (state (exec (setTranscript (lit "Pasted notes")) uploaded))
    <> lit "".
Proof. repeat split; [discriminate | discriminate]. Qed.

(** C4 (amended): for every string [text], the paste path (the [onChange]
    of the transcript textarea, [setTranscript text]) completes normally
    and sets [transcript] to [text]; it leaves [fileName] and every other
    field as they were. *)
Theorem paste_sets_transcript_only (w : World) (text : jsstring) :
  let w' := exec (dispatch (TranscriptChange text) (state w)) w in
  fst (dispatch (TranscriptChange text) (state w) w) = Normal tt /\
  transcript (state w') = text /\
  fileName (state w') = fileName (state w) /\
  customPrompt (state w') = customPrompt (state w) /\
  summary (state w') = summary (state w) /\
  summaryId (state w') = summaryId (state w) /\
  loading (state w') = loading (state w) /\
  alert (state w') = alert (state w) /\
  recipientEmails (state w') = recipientEmails (state w) /\
  editMode (state w') = editMode (state w) /\
  inputMethod (state w') = inputMethod (state w) /\
  inflight w' = inflight w /\ timers w' = timers w /\
  effects w' = effects w /\ clock w' = clock w.
Proof. repeat split. Qed.

(** ** [handleGenerateSummary]: the order of the checks *)

Lemma generate_without_transcript (c : AppState) (w : World) :
  trim (transcript c) = [] ->
  handleGenerateSummary c w =
    (Normal tt, notified (lit "error") (lit "Please provide a transcript first") w).
Proof.
  intros H. unfold handleGenerateSummary. rewrite H. reflexivity.
Qed.

Lemma generate_without_instruction (c : AppState) (w : World) :
  trim (transcript c) <> [] -> trim (customPrompt c) = [] ->
  handleGenerateSummary c w =
    (Normal tt, notified (lit "error") (lit "Please enter a custom instruction") w).
Proof.
  intros Ht Hp. unfold handleGenerateSummary.
  apply truthy_true_iff in Ht. rewrite Ht, Hp. reflexivity.
Qed.

Lemma generate_with_both (c : AppState) (w : World) :
  trim (transcript c) <> [] -> trim (customPrompt c) <> [] ->
  handleGenerateSummary c w =
    (setLoading true ;;
     fetch (GenerateSummary (transcript c) (customPrompt c)) AfterGenerate) w.
Proof.
  intros Ht Hp. unfold handleGenerateSummary.
  apply truthy_true_iff in Ht. apply truthy_true_iff in Hp.
  rewrite Ht, Hp. reflexivity.
Qed.

(** C7: with the transcript and the instruction both empty,
    [handleGenerateSummary] does one thing only, a single error
    notification, and it is the transcript-missing one, not the
    instruction-missing one; no request is sent and none is pending. *)
Theorem generate_checks_transcript_first (w : World) :
  trim (transcript (state w)) = lit "" ->
  trim (customPrompt (state w)) = lit "" ->
  let w' := exec (handleGenerateSummary (state w)) w in
  w' = notified (lit "error") (lit "Please provide a transcript first") w /\
  alert (state w') = shown (lit "error") (lit "Please provide a transcript first") /\
  message (alert (state w')) <> lit "Please enter a custom instruction" /\
  requests w' = requests w /\ inflight w' = inflight w /\
  loading (state w') = loading (state w).
Proof.
  intros Ht _ w'. subst w'. unfold exec.
  rewrite (generate_without_transcript _ w Ht). simpl.
  repeat split. discriminate.
Qed.

Lemma generate_checks_transcript_first_witness :
  let w' := exec (handleGenerateSummary (state boot)) boot in
  alert (state w') = shown (lit "error") (lit "Please provide a transcript first") /\
  requests w' = [].
Proof.
  pose proof (generate_checks_transcript_first boot eq_refl eq_refl) as H.
  simpl in H. destruct H as (_ & Ha & _ & Hr & _).
  split; [exact Ha | exact Hr].
Defined.

(** ** [handleFileUpload]: the file type gate *)

Lemma settled_upload_sends_nothing (file : File) (o : Outcome) (w : World) :
  requests (exec (handleFileUpload_settled file o) w) = requests w /\
  inflight (exec (handleFileUpload_settled file o) w) = inflight w.
Proof.
  outcome_cases o; settled.
Qed.

(** C8: a file whose name does not end in [.txt] (compared code unit by
    code unit, so [NOTES.TXT] does not pass) gets the error notification
    and nothing else: no other field changes and no request is sent.  A
    file whose name ends in [.txt] makes the handler send exactly one
    upload request, and the rest of the handler sends none. *)
Theorem upload_file_type_gate (w : World) (file : File) :
  (endsWith (name file) (lit ".txt") = false ->
     let w' := exec (handleFileUpload (Some file)) w in
     w' = notified (lit "error") (lit "Please upload a .txt file only") w /\
     requests w' = requests w /\ inflight w' = inflight w) /\
  (endsWith (name file) (lit ".txt") = true ->
     let w' := exec (handleFileUpload (Some file)) w in
     effects w' = effects w ++ [Fetch (UploadTranscript file)] /\
     requests w' = requests w ++ [UploadTranscript file] /\
     inflight w' = inflight w ++ [AfterUpload file] /\
     forall o, requests (exec (handleFileUpload_settled file o) w')
               = requests w ++ [UploadTranscript file]).
Proof.
  split; intros H; unfold exec, handleFileUpload; rewrite H; simpl.
  - repeat split.
  - assert (Hr : requests
        {| state := state (snd (setLoading true w)); clock := clock w;
           timers := timers w; inflight := inflight w ++ [AfterUpload file];
           effects := effects w ++ [Fetch (UploadTranscript file)] |}
        = requests w ++ [UploadTranscript file]).
    { unfold requests. simpl. rewrite flat_map_app. reflexivity. }
    repeat split; try exact Hr.
    intros o. rewrite <- Hr. apply settled_upload_sends_nothing.
Qed.

Lemma upload_file_type_gate_witness :
  (endsWith (name notes_pdf) (lit ".txt") = false /\
   exec (handleFileUpload (Some notes_pdf)) boot
     = notified (lit "error") (lit "Please upload a .txt file only") boot) /\
  (endsWith (name notes_txt) (lit ".txt") = true /\
   requests (exec (handleFileUpload (Some notes_txt)) boot)
     = [UploadTranscript notes_txt]).
Proof.
  split.
  - split; [reflexivity |].
    apply (proj1 (upload_file_type_gate boot notes_pdf)). reflexivity.
  - split; [reflexivity |].
    apply (proj2 (upload_file_type_gate boot notes_txt)). reflexivity.
Defined.

Example upload_is_case_sensitive :
  exec (handleFileUpload (Some notes_TXT)) boot
    = notified (lit "error") (lit "Please upload a .txt file only") boot.
Proof. reflexivity. Qed.

Example upload_without_file (w : World) :
  handleFileUpload None w = (Normal tt, w).
Proof. reflexivity. Qed.

(** ** Blank strings *)

(** C10: the emptiness checks look at the trimmed string.  When the
    transcript is white space only, [handleGenerateSummary] reports the
    missing transcript; when the instruction is, it reports a missing
    field (the instruction, if the transcript is there); in both cases no
    request is sent.  When the summary is white space only,
    [handleUpdateSummary] returns without a request and
    [handleSendEmail] reports that there is no summary. *)
Theorem blank_counts_as_missing (w : World) :
  (white (transcript (state w)) ->
     exec (handleGenerateSummary (state w)) w
       = notified (lit "error") (lit "Please provide a transcript first") w) /\
  (white (customPrompt (state w)) ->
     exec (handleGenerateSummary (state w)) w
       = notified (lit "error")
           (if truthy (trim (transcript (state w)))
            then lit "Please enter a custom instruction"
            else lit "Please provide a transcript first") w) /\
  ((white (transcript (state w)) \/ white (customPrompt (state w))) ->
     requests (exec (handleGenerateSummary (state w)) w) = requests w /\
     inflight (exec (handleGenerateSummary (state w)) w) = inflight w) /\
  (white (summary (state w)) ->
     handleUpdateSummary (state w) w = (Normal tt, w)) /\
  (white (summary (state w)) ->
     exec (handleSendEmail (state w)) w
       = notified (lit "error") (lit "No summary to send") w).
Proof.
  assert (Ht : white (transcript (state w)) ->
     exec (handleGenerateSummary (state w)) w
       = notified (lit "error") (lit "Please provide a transcript first") w).
  { intros H. unfold exec.
    rewrite (generate_without_transcript _ w (trim_white _ H)). reflexivity. }
  assert (Hp : white (customPrompt (state w)) ->
     exec (handleGenerateSummary (state w)) w
       = notified (lit "error")
           (if truthy (trim (transcript (state w)))
            then lit "Please enter a custom instruction"
            else lit "Please provide a transcript first") w).
  { intros H. unfold exec, handleGenerateSummary.
    rewrite (trim_white _ H).
    destruct (truthy (trim (transcript (state w)))); reflexivity. }
  split; [exact Ht | split; [exact Hp | split; [| split]]].
  - intros [H | H]; [rewrite (Ht H) | rewrite (Hp H)]; split; reflexivity.
  - intros H. unfold handleUpdateSummary. rewrite (trim_white _ H).
    simpl. rewrite orb_true_r. reflexivity.
  - intros H. unfold exec, handleSendEmail. rewrite (trim_white _ H).
    reflexivity.
Qed.

Lemma blank_counts_as_missing_witness :
  let w := exec (setCustomPrompt (lit " ")) (exec (setTranscript [9; 32; 10]%N) boot) in
  transcript (state w) <> lit "" /\
  exec (handleGenerateSummary (state w)) w
    = notified (lit "error") (lit "Please provide a transcript first") w /\
  summary (state blank_saved) <> lit "" /\
  handleUpdateSummary (state blank_saved) blank_saved = (Normal tt, blank_saved) /\
  exec (handleSendEmail (state blank_saved)) blank_saved
    = notified (lit "error") (lit "No summary to send") blank_saved.
Proof.
  intros w.
  split; [discriminate |].
  split.
  { apply (proj1 (blank_counts_as_missing w)).
    repeat constructor. }
  split; [vm_compute; discriminate |].
  split.
  { apply (proj1 (proj2 (proj2 (proj2 (blank_counts_as_missing blank_saved))))).
    repeat constructor. }
  apply (proj2 (proj2 (proj2 (proj2 (blank_counts_as_missing blank_saved))))).
  repeat constructor.
Defined.
(** ** [handleUpdateSummary]: a failed save *)

Example editing_reached :
  run boot editing_events = Some editing /\
  summaryId (state editing) = lit "s1" /\
  summary (state editing) = lit "edited text" /\
  editMode (state editing) = true /\ loading (state editing) = false /\
  inflight editing = [].
Proof. vm_compute. repeat split. Qed.

Example reviewing_reached :
  run editing [EditSaveClick; Settle 0 (Fulfilled true update_reply)]
    = Some reviewing /\
  editMode (state reviewing) = false /\
  alert (state reviewing) = shown (lit "success") (lit "Summary updated successfully!") /\
  requests reviewing =
    [ GenerateSummary (lit "Team discussed Q3 roadmap.") (lit "List action items");
      UpdateSummary (lit "s1") (lit "edited text") ].
Proof. vm_compute. repeat split. Qed.

(** Whenever the update request fails, and whatever happened since it was
    sent, the rest of the handler touches only [alert] and [loading]. *)
Lemma settled_update_failure (o : Outcome) (w : World) :
  failed o ->
  let w' := exec (handleUpdateSummary_settled o) w in
  editMode (state w') = editMode (state w) /\
  summary (state w') = summary (state w) /\
  summaryId (state w') = summaryId (state w) /\
  transcript (state w') = transcript (state w) /\
  loading (state w') = false /\
  (exists msg, msg <> lit "" /\ alert (state w') = shown (lit "error") msg) /\
  timers w' = timers w ++ [(clock w + 4000)%N] /\
  requests w' = requests w /\ inflight w' = inflight w.
Proof.
  intros Hfail.
  outcome_cases o; try (simpl in Hfail; congruence); settled.
Qed.

(** The message of a failed update: the server's [detail] when there is
    one, the text of the error when a promise was rejected, and the fixed
    texts otherwise. *)
Lemma settled_update_failure_message (o : Outcome) (w : World) :
  failed o ->
  message (alert (state (exec (handleUpdateSummary_settled o) w))) =
    match o with
    | Rejected e => or_else (error_message e) (lit "Failed to update summary")
    | Fulfilled _ data => or_else (data_detail data) (lit "Update failed")
    end.
Proof.
  intros Hfail.
  assert (Hor : forall d : jsstring,
             or_else (or_else d (lit "Update failed"))
                     (lit "Failed to update summary")
             = or_else d (lit "Update failed")).
  { intros d. destruct d; reflexivity. }
  outcome_cases o; try (simpl in Hfail; congruence).
  - reflexivity.
  - exact (Hor (data_detail data)).
  - exact (Hor (data_detail data)).
Qed.

(** C5: in a state with a summary id, a non-empty summary and
    [editMode] set, when [handleUpdateSummary] sends its request and the
    request fails (a rejected promise, or a reply that is not a success),
    the state afterwards still has [editMode] set and the same summary, an
    error notification is up with its timer set, and [loading] is
    cleared. *)
Theorem save_failure_keeps_edits (w : World) (o : Outcome) :
  summaryId (state w) <> lit "" ->
  summary (state w) <> lit "" ->
  editMode (state w) = true ->
  let w1 := exec (handleUpdateSummary (state w)) w in
  requests w1 = requests w ++ [UpdateSummary (summaryId (state w)) (summary (state w))] ->
  failed o ->
  let w2 := exec (handleUpdateSummary_settled o) w1 in
  editMode (state w2) = true /\
  summary (state w2) = summary (state w) /\
  summaryId (state w2) = summaryId (state w) /\
  (exists msg, msg <> lit "" /\ alert (state w2) = shown (lit "error") msg) /\
  timers w2 = timers w ++ [(clock w + 4000)%N] /\
  loading (state w2) = false /\
  requests w2 = requests w ++ [UpdateSummary (summaryId (state w)) (summary (state w))].
Proof.
  intros Hid _ Hedit w1 Hsent Hfail w2.
  destruct (settled_update_failure o w1 Hfail)
    as (He & Hs & Hi & _ & Hl & Ha & Ht & Hr & _).
  fold w2 in He, Hs, Hi, Hl, Ha, Ht, Hr.
  assert (Hsame : editMode (state w1) = editMode (state w) /\
                  summary (state w1) = summary (state w) /\
                  summaryId (state w1) = summaryId (state w) /\
                  timers w1 = timers w /\ clock w1 = clock w).
  { subst w1. unfold handleUpdateSummary.
    destruct (negb (truthy (summaryId (state w)))
              || negb (truthy (trim (summary (state w)))));
      repeat split. }
  destruct Hsame as (He1 & Hs1 & Hi1 & Ht1 & Hc1).
  rewrite He, Hs, Hi, Ht, Hr, He1, Hs1, Hi1, Ht1, Hc1.
  repeat split; assumption.
Qed.

Lemma save_failure_keeps_edits_witness :
  let w2 := exec (handleUpdateSummary_settled (Fulfilled true update_refusal))
                 (exec (handleUpdateSummary (state editing)) editing) in
  summaryId (state editing) = lit "s1" /\
  summary (state editing) = lit "edited text" /\
  editMode (state w2) = true /\
  summary (state w2) = lit "edited text" /\
  loading (state w2) = false.
Proof.
  intros w2.
  assert (Hid : summaryId (state editing) <> lit "")
    by (vm_compute; discriminate).
  assert (Hs : summary (state editing) <> lit "")
    by (vm_compute; discriminate).
  assert (He0 : editMode (state editing) = true) by (vm_compute; reflexivity).
  assert (Hr : requests (exec (handleUpdateSummary (state editing)) editing)
               = requests editing
                 ++ [UpdateSummary (summaryId (state editing)) (summary (state editing))])
    by (vm_compute; reflexivity).
  assert (Hf : failed (Fulfilled true update_refusal)) by reflexivity.
  destruct (save_failure_keeps_edits editing (Fulfilled true update_refusal)
              Hid Hs He0 Hr Hf) as (He & Hsum & _ & _ & _ & Hl & _).
  split; [vm_compute; reflexivity |].
  split; [vm_compute; reflexivity |].
  split; [exact He |].
  split; [| exact Hl].
  etransitivity; [exact Hsum | vm_compute; reflexivity].
Defined.

Example save_refused_message :
  alert (state (exec (handleUpdateSummary_settled (Fulfilled true update_refusal))
                   (exec (handleUpdateSummary (state editing)) editing)))
    = shown (lit "error") (lit "Summary not found") /\
  alert (state (exec (handleUpdateSummary_settled
                      (Rejected {| error_message := lit "Failed to fetch" |}))
                   (exec (handleUpdateSummary (state editing)) editing)))
    = shown (lit "error") (lit "Failed to fetch").
Proof. vm_compute. split; reflexivity. Qed.
(** ** [handleSendEmail] *)

(** Encoding goes through concatenation when both parts encode: a part
    that encodes ends on a complete code point. *)
Lemma encodeURIComponent_app_len (n : nat) :
  forall a b a' b',
    length a <= n ->
    JS.encodeURIComponent a = Some a' ->
    JS.encodeURIComponent b = Some b' ->
    JS.encodeURIComponent (a ++ b) = Some (a' ++ b').
Proof.
  induction n as [| n IH]; intros a b a' b' Hlen Ha Hb.
  - destruct a; [| simpl in Hlen; lia].
    simpl in Ha. injection Ha as <-. exact Hb.
  - destruct a as [| c rest].
    + simpl in Ha. injection Ha as <-. exact Hb.
    + simpl in Hlen. simpl in Ha |- *.
      destruct (uri_unescaped c).
      * destruct (JS.encodeURIComponent rest) as [r |] eqn:Er; [| discriminate].
        simpl in Ha. injection Ha as <-.
        rewrite (IH rest b r b'); [reflexivity | lia | exact Er | exact Hb].
      * destruct (is_trailing_surrogate c); [discriminate |].
        destruct (is_leading_surrogate c).
        -- destruct rest as [| d rest']; [discriminate |].
           simpl in Hlen |- *.
           destruct (is_trailing_surrogate d); [| discriminate].
           destruct (JS.encodeURIComponent rest') as [r |] eqn:Er;
             [| discriminate].
           simpl in Ha. injection Ha as <-.
           rewrite (IH rest' b r b'); [| lia | exact Er | exact Hb].
           simpl. rewrite app_assoc. reflexivity.
        -- destruct (JS.encodeURIComponent rest) as [r |] eqn:Er;
             [| discriminate].
           simpl in Ha. injection Ha as <-.
           rewrite (IH rest b r b'); [| lia | exact Er | exact Hb].
           simpl. rewrite app_assoc. reflexivity.
Qed.

Lemma encodeURIComponent_app (a b a' b' : jsstring) :
  JS.encodeURIComponent a = Some a' ->
  JS.encodeURIComponent b = Some b' ->
  JS.encodeURIComponent (a ++ b) = Some (a' ++ b').
Proof. apply (encodeURIComponent_app_len (length a)). apply Nat.le_refl. Qed.

Lemma encodeURIComponent_mail_body (s s' : jsstring) :
  JS.encodeURIComponent s = Some s' ->
  JS.encodeURIComponent (mail_body s) = Some (encoded_mail_body s').
Proof.
  intros H. unfold mail_body, encoded_mail_body.
  change (JS.encodeURIComponent
            ((lit "Hi," ++ newline ++ newline ++
              lit "Please find the meeting summary below:" ++ newline ++ newline)
             ++ s ++ (newline ++ newline ++ lit "Best regards"))
          = Some (lit "Hi%2C%0A%0APlease%20find%20the%20meeting%20summary%20below%3A%0A%0A"
                  ++ s' ++ lit "%0A%0ABest%20regards")).
  apply encodeURIComponent_app; [vm_compute; reflexivity |].
  apply encodeURIComponent_app; [exact H | vm_compute; reflexivity].
Qed.

(** The ways [handleSendEmail] can end. *)
Lemma handleSendEmail_outcome (c : AppState) (w : World) :
  handleSendEmail c w =
    if negb (truthy (trim (summary c))) then
      (Normal tt, notified (lit "error") (lit "No summary to send") w)
    else if editMode c then
      (Normal tt,
       notified (lit "error") (lit "Please save your edits before sending") w)
    else
      match JS.encodeURIComponent (mail_body (summary c)) with
      | Some body =>
          (Normal tt,
           notified (lit "success") (lit "Email client opened with summary")
             {| state := state w; clock := clock w; timers := timers w;
                inflight := inflight w;
                effects := effects w
                  ++ [Navigate (lit "mailto:" ++ recipientEmails c
                                ++ lit "?subject=Meeting%20Summary&body="
                                ++ body)] |})
      | None => (Throw URIError, w)
      end.
Proof.
  unfold handleSendEmail.
  destruct (negb (truthy (trim (summary c)))); [reflexivity |].
  destruct (editMode c); [reflexivity |].
  unfold encodeURIComponent at 1.
  change (JS.encodeURIComponent (lit "Meeting Summary"))
    with (Some (lit "Meeting%20Summary")).
  cbv iota. rewrite bind_ret. unfold encodeURIComponent.
  destruct (JS.encodeURIComponent (mail_body (summary c))) as [body |];
    [| reflexivity].
  rewrite bind_ret.
  destruct (truthy (recipientEmails c)); reflexivity.
Qed.

Example blank_saved_reached :
  run editing [ EditSaveClick; SummaryChange (lit " ");
                Settle 0 (Fulfilled true update_reply) ] = Some blank_saved /\
  summary (state blank_saved) = lit " " /\
  editMode (state blank_saved) = false /\
  enabled blank_saved SendClick = true.
Proof. vm_compute. repeat split. Qed.

(** C6, as stated, fails: out of edit mode and with a summary that is not
    empty (one space), sending is refused and no mail link is opened. *)
Lemma send_refuses_blank_summary :
  editMode (state blank_saved) = false /\
  summary (state blank_saved) <> lit "" /\
  exec (handleSendEmail (state blank_saved)) blank_saved
    = notified (lit "error") (lit "No summary to send") blank_saved /\
  dispatches (exec (handleSendEmail (state blank_saved)) blank_saved) = [].
Proof. vm_compute. repeat split. discriminate. Qed.

(** A summary with an unpaired surrogate: [encodeURIComponent] throws, so
    no mail link is opened and no notification is shown. *)
Example send_throws_on_unpaired_surrogate :
  let w := exec (setSummary [55357%N]) reviewing in
  handleSendEmail (state w) w = (Throw URIError, w).
Proof. vm_compute. reflexivity. Qed.

(** C6 (amended): in edit mode [handleSendEmail] always ends in an error
    notification (missing summary or unsaved edits) and opens no mail
    link, whatever the summary; so does it when the trimmed summary is
    empty.  Out of edit mode, with a summary that is non-empty after
    trimming and that [encodeURIComponent] accepts (no unpaired
    surrogate), it opens the mailto link with the fixed subject, the
    recipients and the body around the summary, and then shows the
    success notification. *)
Theorem send_gating (w : World) :
  let w' := exec (handleSendEmail (state w)) w in
  (editMode (state w) = true ->
     w' = notified (lit "error")
            (if truthy (trim (summary (state w)))
             then lit "Please save your edits before sending"
             else lit "No summary to send") w /\
     dispatches w' = dispatches w) /\
  (trim (summary (state w)) = lit "" ->
     w' = notified (lit "error") (lit "No summary to send") w /\
     dispatches w' = dispatches w) /\
  (editMode (state w) = false ->
   trim (summary (state w)) <> lit "" ->
   forall encoded,
     JS.encodeURIComponent (summary (state w)) = Some encoded ->
     fst (handleSendEmail (state w) w) = Normal tt /\
     effects w' = effects w
                  ++ [Navigate (mailto (recipientEmails (state w)) encoded)] /\
     dispatches w' = dispatches w ++ [mailto (recipientEmails (state w)) encoded] /\
     alert (state w') = shown (lit "success") (lit "Email client opened with summary") /\
     timers w' = timers w ++ [(clock w + 4000)%N]).
Proof.
  intros w'. subst w'. unfold exec. rewrite handleSendEmail_outcome.
  split; [| split].
  - intros He. rewrite He.
    destruct (truthy (trim (summary (state w)))); split; reflexivity.
  - intros Hs. rewrite Hs. split; reflexivity.
  - intros He Hs encoded Henc. rewrite He.
    apply truthy_true_iff in Hs. rewrite Hs.
    rewrite (encodeURIComponent_mail_body _ _ Henc).
    unfold dispatches. simpl. rewrite flat_map_app.
    repeat split.
Qed.

Lemma send_gating_witness :
  (editMode (state editing) = true /\
   dispatches (exec (handleSendEmail (state editing)) editing) = dispatches editing) /\
  (editMode (state reviewing) = false /\
   trim (summary (state reviewing)) <> lit "" /\
   dispatches (exec (handleSendEmail (state reviewing)) reviewing)
     = dispatches reviewing ++ [mailto (lit "") (lit "edited%20text")]).
Proof.
  split.
  - assert (He : editMode (state editing) = true) by (vm_compute; reflexivity).
    split; [exact He |].
    exact (proj2 (proj1 (send_gating editing) He)).
  - assert (He : editMode (state reviewing) = false) by (vm_compute; reflexivity).
    assert (Hs : trim (summary (state reviewing)) <> lit "")
      by (vm_compute; discriminate).
    assert (Henc : JS.encodeURIComponent (summary (state reviewing))
                   = Some (lit "edited%20text")) by (vm_compute; reflexivity).
    split; [exact He | split; [exact Hs |]].
    destruct (proj2 (proj2 (send_gating reviewing)) He Hs _ Henc)
      as (_ & _ & Hd & _).
    etransitivity; [exact Hd |].
    vm_compute. reflexivity.
Defined.

Example send_link :
  dispatches (exec (handleSendEmail (state reviewing)) reviewing) =
    [ lit "mailto:?subject=Meeting%20Summary&body=Hi%2C%0A%0APlease%20find%20the%20meeting%20summary%20below%3A%0A%0Aedited%20text%0A%0ABest%20regards" ].
Proof. vm_compute. reflexivity. Qed.

(** ** Timers *)

Lemma existsb_filter_nil {A} (f : A -> bool) (l : list A) :
  existsb f l = match filter f l with [] => false | _ :: _ => true end.
Proof.
  induction l as [| a l IH]; simpl; [reflexivity |].
  destruct (f a); simpl; [reflexivity | exact IH].
Qed.

Lemma hide_all (due : list N) (w : World) :
  snd (fold_right (fun (_ : N) rest => hideAlert ;; rest) (ret tt) due w) =
    match due with
    | [] => w
    | _ :: _ =>
        {| state := with_alert no_alert (state w); clock := clock w;
           timers := timers w; inflight := inflight w; effects := effects w |}
    end.
Proof.
  revert w. induction due as [| t due IH]; intros w; [reflexivity |].
  simpl. unfold bind at 1. unfold hideAlert at 1, setAlert at 1, update at 1.
  rewrite IH. destruct due; reflexivity.
Qed.

(** What the passing of [ms] milliseconds does. *)
Lemma elapse_spec (ms : N) (w : World) :
  exec (elapse ms) w =
    {| state := if existsb (fun t => (t <=? clock w + ms)%N) (timers w)
              then with_alert no_alert (state w) else state w;
       clock := (clock w + ms)%N;
       timers := filter (fun t => (clock w + ms <? t)%N) (timers w);
       inflight := inflight w; effects := effects w |}.
Proof.
  unfold exec, elapse. rewrite hide_all, existsb_filter_nil.
  destruct (filter (fun t => (t <=? clock w + ms)%N) (timers w)); reflexivity.
Qed.






(** ** What one event can do to the timers and to the pending requests *)

(** However its request ends, a resumed handler shows one notification,
    clears [loading], and neither sends nor awaits anything. *)
Lemma continue_frame (k : Continuation) (o : Outcome) (w : World) :
  let w' := exec (continue k o) w in
  clock w' = clock w /\
  timers w' = timers w ++ [(clock w + 4000)%N] /\
  show (alert (state w')) = true /\
  loading (state w') = false /\
  inflight w' = inflight w /\
  requests w' = requests w.
Proof.
  destruct k as [file | |]; outcome_cases o; settled.
Qed.

Lemma settle_outcome (i : nat) (o : Outcome) (w : World) :
  exec (dispatch (Settle i o) (state w)) w =
    match nth_error (inflight w) i with
    | Some k => exec (continue k o) (resumed i w)
    | None => resumed i w
    end.
Proof.
  unfold dispatch, exec, resumed, bind, resume.
  destruct (nth_error (inflight w) i); reflexivity.
Qed.




(** ** The lifetime of a notification *)

Example second_refusal_reached :
  run boot first_refusal_events = Some first_refusal /\
  clock first_refusal = 3000%N /\
  timers first_refusal = [4000%N] /\
  step first_refusal GenerateClick = Some second_refusal /\
  second_refusal
    = exec (showAlert (lit "error") (lit "Please enter a custom instruction"))
           first_refusal /\
  timers second_refusal = [4000; 7000]%N.
Proof. vm_compute. repeat split. Qed.



(** ** The [loading] flag and the pending requests *)

Lemma elapse_flight (ms : N) (w : World) :
  loading (state (exec (elapse ms) w)) = loading (state w) /\
  inflight (exec (elapse ms) w) = inflight w.
Proof.
  rewrite elapse_spec. simpl.
  destruct (existsb (fun t => (t <=? clock w + ms)%N) (timers w)); split; reflexivity.
Qed.

(** Unless it starts an upload while [loading] is set, an event the
    component offers keeps one request pending exactly when [loading] is
    set. *)
Lemma step_single_flight (w w' : World) (e : Event) :
  step w e = Some w' ->
  (starts_upload e = true -> loading (state w) = false) ->
  single_flight w -> single_flight w'.
Proof.
  unfold step, single_flight. intros Hstep Hup Hinv.
  destruct (enabled w e) eqn:Hen; [| discriminate].
  injection Hstep as <-.
  destruct e; try exact Hinv.
  - (* FileChange *)
    destruct files0 as [file |]; [| exact Hinv].
    simpl in Hup. cbv [dispatch handleFileUpload].
    destruct (endsWith (name file) (lit ".txt")); [| exact Hinv].
    rewrite (Hup eq_refl) in Hinv.
    change (length (inflight w ++ [AfterUpload file]) = 1).
    rewrite length_app, Hinv. reflexivity.
  - (* GenerateClick *)
    simpl in Hen. apply negb_true_iff in Hen.
    apply orb_false_iff in Hen. destruct Hen as [Hen _].
    apply orb_false_iff in Hen. destruct Hen as [Hl _].
    rewrite Hl in Hinv.
    cbv [dispatch handleGenerateSummary].
    destruct (negb (truthy (trim (transcript (state w)))));
      [| destruct (negb (truthy (trim (customPrompt (state w)))))];
      try (change (length (inflight w) = if loading (state w) then 1 else 0);
           rewrite Hl; exact Hinv).
    change (length (inflight w ++ [AfterGenerate]) = 1).
    rewrite length_app, Hinv. reflexivity.
  - (* EditSaveClick *)
    simpl in Hen. apply andb_true_iff in Hen. destruct Hen as [_ Hl].
    apply negb_true_iff in Hl. rewrite Hl in Hinv.
    cbv [dispatch handleUpdateSummary].
    destruct (editMode (state w));
      [destruct (negb (truthy (summaryId (state w)))
                 || negb (truthy (trim (summary (state w))))) |];
      try (change (length (inflight w) = if loading (state w) then 1 else 0);
           rewrite Hl; exact Hinv).
    change (length (inflight w ++ [AfterUpdate]) = 1).
    rewrite length_app, Hinv. reflexivity.
  - (* SendClick *)
    unfold dispatch, exec. rewrite handleSendEmail_outcome.
    destruct (negb (truthy (trim (summary (state w)))));
      [| destruct (editMode (state w));
         [| destruct (JS.encodeURIComponent (mail_body (summary (state w))))]];
      exact Hinv.
  - (* Settle *)
    simpl in Hen. apply Nat.ltb_lt in Hen.
    destruct (loading (state w)); [| lia].
    assert (i = 0) by lia. subst i.
    destruct (inflight w) as [| k [| k' rest]] eqn:Hfl;
      try discriminate Hinv.
    rewrite settle_outcome, Hfl. simpl nth_error.
    destruct (continue_frame k o (resumed 0 w)) as (_ & _ & _ & Hl & Hi & _).
    rewrite Hl, Hi. unfold resumed, resume. simpl. rewrite Hfl. reflexivity.
  - (* Elapse *)
    simpl dispatch. destruct (elapse_flight ms w) as [-> ->]. exact Hinv.
Qed.

Lemma run_single_flight (es : list Event) :
  forall w w',
    run w es = Some w' ->
    uploads_start_idle w es = true ->
    single_flight w -> single_flight w'.
Proof.
  induction es as [| e es IH]; intros w w' Hrun Hidle Hinv; simpl in Hrun.
  - injection Hrun as <-. exact Hinv.
  - simpl in Hidle. apply andb_true_iff in Hidle.
    destruct Hidle as [He Hes].
    destruct (step w e) as [w1 |] eqn:Hstep; [| discriminate].
    apply (IH w1 w' Hrun Hes).
    apply (step_single_flight w w1 e Hstep); [| exact Hinv].
    intros Hup. rewrite Hup in He. simpl in He.
    apply negb_true_iff. exact He.
Qed.

(** A run in which no upload is started at all is one of them. *)
Lemma no_upload_starts_idle (es : list Event) :
  forall w,
    forallb (fun e => negb (starts_upload e)) es = true ->
    uploads_start_idle w es = true.
Proof.
  induction es as [| e es IH]; intros w Hno; [reflexivity |].
  simpl in Hno |- *. apply andb_true_iff in Hno. destruct Hno as [He Hes].
  rewrite He. simpl.
  destruct (step w e) as [w1 |]; [apply IH; exact Hes | reflexivity].
Qed.

Example saving_reached :
  run boot saving_events = Some saving /\
  inflight saving = [AfterUpdate] /\
  requests saving =
    [ UploadTranscript notes_txt;
      GenerateSummary (lit "Team discussed Q3 roadmap.") (lit "List action items");
      UpdateSummary (lit "s1") (lit "- Ship v2") ].
Proof. vm_compute. repeat split. Qed.

Example upload_while_generating :
  run generating [InputMethodClick upload; FileChange (Some notes_txt)]
    = Some (exec (handleFileUpload (Some notes_txt))
                 (exec (setInputMethod upload) generating)) /\
  inflight (exec (handleFileUpload (Some notes_txt))
                 (exec (setInputMethod upload) generating))
    = [AfterGenerate; AfterUpload notes_txt].
Proof. vm_compute. split; reflexivity. Qed.

Example send_while_generating :
  run reviewing [GenerateClick]
    = Some (exec (handleGenerateSummary (state reviewing)) reviewing) /\
  loading (state (exec (handleGenerateSummary (state reviewing)) reviewing))
    = true /\
  enabled (exec (handleGenerateSummary (state reviewing)) reviewing) SendClick
    = true.
Proof. vm_compute. repeat split. Qed.

(** C2, as stated, fails: with a generate request pending and [loading]
    set, the clear trigger is offered, and so is the file input, through
    which a second request is sent while the first is pending. *)
Lemma busy_leaves_triggers_enabled :
  run boot generating_events = Some generating /\
  loading (state generating) = true /\
  enabled generating ClearClick = true /\
  (exists w,
     run generating [InputMethodClick upload; FileChange (Some notes_txt)]
       = Some w /\
     loading (state w) = true /\ length (inflight w) = 2) /\
  ~ busy_blocks_every_trigger.
Proof.
  split; [vm_compute; reflexivity |].
  split; [vm_compute; reflexivity |].
  split; [reflexivity |].
  split.
  - eexists. split; [vm_compute; reflexivity |].
    split; vm_compute; reflexivity.
  - intros H.
    destruct (H generating_events generating) as [Hoff _];
      [vm_compute; reflexivity | vm_compute; reflexivity |].
    specialize (Hoff ClearClick eq_refl). discriminate Hoff.
Qed.

(** C2 (amended): whenever [loading] is set, the generate trigger and the
    edit/save trigger are disabled, so that in a run in which no upload is
    started while [loading] is set at most one request is pending, and one
    is pending exactly when [loading] is set.  The send trigger is gated
    by the summary and [editMode] only, and the clear trigger is never
    disabled. *)
Theorem busy_gates_generate_and_save (es : list Event) (w : World) :
  run boot es = Some w ->
  (loading (state w) = true ->
     enabled w GenerateClick = false /\ enabled w EditSaveClick = false) /\
  enabled w SendClick = truthy (summary (state w)) && negb (editMode (state w)) /\
  enabled w ClearClick = true /\
  (uploads_start_idle boot es = true ->
     length (inflight w) <= 1 /\
     length (inflight w) = if loading (state w) then 1 else 0).
Proof.
  intros Hrun.
  split; [| split; [reflexivity | split; [reflexivity |]]].
  - intros Hl. simpl. rewrite Hl. simpl.
    rewrite andb_false_r. split; reflexivity.
  - intros Hno.
    assert (Hinv : single_flight w).
    { apply (run_single_flight es boot w Hrun Hno). reflexivity. }
    unfold single_flight in Hinv. split; [| exact Hinv].
    rewrite Hinv. destruct (loading (state w)); lia.
Qed.

Lemma busy_gates_generate_and_save_witness :
  run boot saving_events = Some saving /\
  uploads_start_idle boot saving_events = true /\
  loading (state saving) = true /\
  truthy (transcript (state saving)) = true /\
  truthy (customPrompt (state saving)) = true /\
  truthy (summary (state saving)) = true /\
  enabled saving GenerateClick = false /\
  enabled saving EditSaveClick = false /\
  length (inflight saving) <= 1.
Proof.
  assert (Hrun : run boot saving_events = Some saving)
    by (vm_compute; reflexivity).
  assert (Hidle : uploads_start_idle boot saving_events = true)
    by (vm_compute; reflexivity).
  assert (Hl : loading (state saving) = true) by (vm_compute; reflexivity).
  destruct (busy_gates_generate_and_save saving_events saving Hrun)
    as (Hoff & _ & _ & Hone).
  destruct (Hoff Hl) as [Hg Hs].
  destruct (Hone Hidle) as [Hle _].
  split; [exact Hrun |]. split; [exact Hidle |]. split; [exact Hl |].
  split; [vm_compute; reflexivity |].
  split; [vm_compute; reflexivity |].
  split; [vm_compute; reflexivity |].
  exact (conj Hg (conj Hs Hle)).
Defined.

(** * Further properties of the handlers *)

(** ** Blank strings, exactly *)

Lemma blank_white (s : jsstring) : blank s = true <-> white s.
Proof.
  unfold blank, white. induction s as [| c s IH]; simpl.
  - split; [constructor | reflexivity].
  - rewrite andb_true_iff, IH. split.
    + intros [Hc Hs]. constructor; assumption.
    + intros H. inversion H; subst. split; assumption.
Qed.

Lemma trimStart_nil (s : jsstring) : trimStart s = [] -> white s.
Proof.
  induction s as [| c s IH]; simpl; intros H; [constructor |].
  destruct (is_white_space c) eqn:Hc; [| discriminate].
  constructor; [exact Hc | exact (IH H)].
Qed.

Lemma trimStart_white_inv (s : jsstring) : white (trimStart s) -> white s.
Proof.
  induction s as [| c s IH]; simpl; intros H; [constructor |].
  destruct (is_white_space c) eqn:Hc; [| exact H].
  constructor; [exact Hc | exact (IH H)].
Qed.

Lemma white_rev (s : jsstring) : white (rev s) -> white s.
Proof.
  unfold white. intros H. rewrite <- (rev_involutive s).
  apply Forall_rev. exact H.
Qed.

(** [trim] leaves nothing exactly of the strings of white space. *)
Lemma trim_nil_iff (s : jsstring) : trim s = [] <-> white s.
Proof.
  split; [| apply trim_white].
  unfold trim, trimEnd. intros H.
  apply trimStart_white_inv, white_rev, trimStart_nil.
  rewrite <- (rev_involutive (trimStart (rev (trimStart s)))), H.
  reflexivity.
Qed.

Lemma truthy_trim (s : jsstring) : truthy (trim s) = negb (blank s).
Proof.
  destruct (blank s) eqn:Hb; simpl.
  - apply truthy_false_iff, trim_nil_iff, blank_white. exact Hb.
  - apply truthy_true_iff. intros H.
    apply trim_nil_iff, blank_white in H. congruence.
Qed.

(** ** [handleGenerateSummary], whole *)

(** [handleGenerateSummary] through the blankness of the two strings. *)
Lemma handleGenerateSummary_outcome (c : AppState) (w : World) :
  handleGenerateSummary c w =
    (Normal tt,
     if blank (transcript c) then
       notified (lit "error") (lit "Please provide a transcript first") w
     else if blank (customPrompt c) then
       notified (lit "error") (lit "Please enter a custom instruction") w
     else
       sending (GenerateSummary (transcript c) (customPrompt c))
               AfterGenerate w).
Proof.
  unfold handleGenerateSummary. rewrite !truthy_trim, !negb_involutive.
  destruct (blank (transcript c)); [reflexivity |].
  destruct (blank (customPrompt c)); reflexivity.
Qed.

(** X1: what [handleGenerateSummary] does depends on the transcript and
    the instruction only through whether each is blank (white space
    only): a blank transcript gets the transcript error, else a blank
    instruction gets the instruction error, and in both cases nothing else
    happens; otherwise [loading] is set and one request is sent, carrying
    the two strings as they are, untrimmed. *)
Theorem generate_by_blankness (w : World) :
  handleGenerateSummary (state w) w =
    (Normal tt,
     if blank (transcript (state w)) then
       notified (lit "error") (lit "Please provide a transcript first") w
     else if blank (customPrompt (state w)) then
       notified (lit "error") (lit "Please enter a custom instruction") w
     else
       sending (GenerateSummary (transcript (state w)) (customPrompt (state w)))
               AfterGenerate w).
Proof. apply handleGenerateSummary_outcome. Qed.

Lemma sending_frame (r : Request) (k : Continuation) (w : World) :
  requests (sending r k w) = requests w ++ [r] /\
  inflight (sending r k w) = inflight w ++ [k] /\
  loading (state (sending r k w)) = true /\
  alert (state (sending r k w)) = alert (state w) /\
  timers (sending r k w) = timers w /\ clock (sending r k w) = clock w /\
  dispatches (sending r k w) = dispatches w.
Proof.
  unfold requests, dispatches, sending. simpl.
  rewrite !flat_map_app, app_nil_r. repeat split.
Qed.

Lemma blank_truthy (s : jsstring) : blank s = false -> truthy s = true.
Proof. destruct s; [discriminate | reflexivity]. Qed.

Lemma app_one_neq {A} (l : list A) (x : A) : l ++ [x] <> l.
Proof.
  intros H. apply (f_equal (@length A)) in H.
  rewrite length_app in H. simpl in H. lia.
Qed.

(** X2: a click on the Generate button sends a request exactly when no
    request has [loading] set and the transcript and the instruction are
    both not blank; the button's own test (non-empty strings) never stands
    in the way of a submission the handler would accept. *)
Theorem generate_click_sends_iff (w : World) :
  (exists w', step w GenerateClick = Some w' /\ requests w' <> requests w)
  <->
  loading (state w) = false /\
  blank (transcript (state w)) = false /\
  blank (customPrompt (state w)) = false.
Proof.
  unfold step, exec. simpl dispatch. rewrite handleGenerateSummary_outcome.
  simpl enabled. simpl snd. split.
  - intros (w' & Hstep & Hreq).
    destruct (loading (state w)); [discriminate |].
    destruct (negb _); [| discriminate]. injection Hstep as <-.
    destruct (blank (transcript (state w))); [exfalso; apply Hreq; reflexivity |].
    destruct (blank (customPrompt (state w)));
      [exfalso; apply Hreq; reflexivity |].
    repeat split.
  - intros (Hl & Ht & Hp). rewrite Hl, Ht, Hp.
    rewrite (blank_truthy _ Ht), (blank_truthy _ Hp). simpl.
    eexists. split; [reflexivity |].
    rewrite (proj1 (sending_frame _ _ w)). apply app_one_neq.
Qed.

Lemma generate_click_sends_iff_witness :
  exists w', step drafted GenerateClick = Some w' /\
             requests w' <> requests drafted.
Proof.
  apply (proj2 (generate_click_sends_iff drafted)). repeat split.
Defined.


(** ** The resumed handlers, whole *)

Lemma or_else_fallback (a b c : jsstring) :
  b <> [] -> or_else (or_else a b) c = or_else a b.
Proof.
  intros Hb. unfold or_else at 1.
  rewrite (proj2 (truthy_true_iff _) (or_else_nonempty a b Hb)). reflexivity.
Qed.

(** Once the outcome is fixed, what a resumed handler did to each field is
    a computation; the text of an error is read through its fallbacks. *)
Ltac through_fallback transport :=
  match goal with
  | |- _ = shown ?ty (or_else ?d ?remote) =>
      transitivity (shown ty (or_else (or_else d remote) transport));
      [ reflexivity
      | apply f_equal; apply or_else_fallback; discriminate ]
  end.

Ltac resumed_fields :=
  unfold reply, failure_text;
  repeat match goal with E : data_success _ = _ |- _ => rewrite E end;
  repeat split;
  first [ reflexivity
        | eapply requests_logged; reflexivity
        | through_fallback (lit "Failed to generate summary")
        | through_fallback (lit "Failed to upload transcript")
        | through_fallback (lit "Failed to update summary") ].

(** X3: the rest of [handleGenerateSummary] never lets an exception out,
    always clears [loading], sends nothing, and leaves the transcript, the
    instruction and the file name alone.  On a success it takes the
    summary and its id from the reply, enters edit mode and says so; on
    any failure it leaves the summary, its id and the edit mode as they
    were and shows an error: the reply's [detail] or the rejection's
    message when there is one, a fixed text otherwise. *)
Theorem generate_settled (o : Outcome) (w : World) :
  let w' := exec (handleGenerateSummary_settled o) w in
  fst (handleGenerateSummary_settled o w) = Normal tt /\
  loading (state w') = false /\
  transcript (state w') = transcript (state w) /\
  customPrompt (state w') = customPrompt (state w) /\
  fileName (state w') = fileName (state w) /\
  requests w' = requests w /\
  match reply o with
  | Some data =>
      summary (state w') = data_summary data /\
      summaryId (state w') = data_summary_id data /\
      editMode (state w') = true /\
      alert (state w') =
        shown (lit "success") (lit "Summary generated successfully!")
  | None =>
      summary (state w') = summary (state w) /\
      summaryId (state w') = summaryId (state w) /\
      editMode (state w') = editMode (state w) /\
      alert (state w') =
        shown (lit "error")
          (failure_text o (lit "Summary generation failed")
                          (lit "Failed to generate summary"))
  end.
Proof. outcome_cases o; resumed_fields. Qed.

(** X4: the rest of [handleFileUpload] never lets an exception out, always
    clears [loading], sends nothing, and never touches the summary, its id,
    the edit mode or the instruction.  On a success the transcript becomes
    the text of the reply and the file name that of the chosen file; on any
    failure both stay as they were and an error is shown, with the same
    choice of text. *)
Theorem upload_settled (file : File) (o : Outcome) (w : World) :
  let w' := exec (handleFileUpload_settled file o) w in
  fst (handleFileUpload_settled file o w) = Normal tt /\
  loading (state w') = false /\
  summary (state w') = summary (state w) /\
  summaryId (state w') = summaryId (state w) /\
  editMode (state w') = editMode (state w) /\
  customPrompt (state w') = customPrompt (state w) /\
  requests w' = requests w /\
  match reply o with
  | Some data =>
      transcript (state w') = data_transcript data /\
      fileName (state w') = name file /\
      alert (state w') =
        shown (lit "success") (lit "Transcript uploaded successfully!")
  | None =>
      transcript (state w') = transcript (state w) /\
      fileName (state w') = fileName (state w) /\
      alert (state w') =
        shown (lit "error")
          (failure_text o (lit "Upload failed")
                          (lit "Failed to upload transcript"))
  end.
Proof. outcome_cases o; resumed_fields. Qed.

(** X5: the rest of [handleUpdateSummary] never lets an exception out,
    always clears [loading], sends nothing, and whatever the outcome never
    changes the summary, its id, the transcript or the instruction: what
    is on screen is what was or will be saved.  It leaves edit mode on a
    success and only then. *)
Theorem update_settled (o : Outcome) (w : World) :
  let w' := exec (handleUpdateSummary_settled o) w in
  fst (handleUpdateSummary_settled o w) = Normal tt /\
  loading (state w') = false /\
  summary (state w') = summary (state w) /\
  summaryId (state w') = summaryId (state w) /\
  transcript (state w') = transcript (state w) /\
  customPrompt (state w') = customPrompt (state w) /\
  requests w' = requests w /\
  match reply o with
  | Some _ =>
      editMode (state w') = false /\
      alert (state w') =
        shown (lit "success") (lit "Summary updated successfully!")
  | None =>
      editMode (state w') = editMode (state w) /\
      alert (state w') =
        shown (lit "error")
          (failure_text o (lit "Update failed")
                          (lit "Failed to update summary"))
  end.
Proof. outcome_cases o; resumed_fields. Qed.


(** ** Every event, in four kinds *)

Lemma update_outcome (c : AppState) (w : World) :
  handleUpdateSummary c w =
    (Normal tt,
     if negb (truthy (summaryId c)) || blank (summary c) then w
     else sending (UpdateSummary (summaryId c) (summary c)) AfterUpdate w).
Proof.
  unfold handleUpdateSummary. rewrite truthy_trim, negb_involutive.
  destruct (negb (truthy (summaryId c)) || blank (summary c)); reflexivity.
Qed.

Lemma upload_outcome (file : File) (w : World) :
  handleFileUpload (Some file) w =
    (Normal tt,
     if endsWith (name file) (lit ".txt")
     then sending (UploadTranscript file) (AfterUpload file) w
     else notified (lit "error") (lit "Please upload a .txt file only") w).
Proof.
  unfold handleFileUpload.
  destruct (endsWith (name file) (lit ".txt")); reflexivity.
Qed.

Lemma notified_shows (ty msg : jsstring) (w : World) :
  (ty = lit "error" \/ ty = lit "success") -> msg <> lit "" ->
  shows w (notified ty msg w) /\ keeps_flight w (notified ty msg w).
Proof.
  intros Hty Hmsg. split.
  - split; [reflexivity |]. exists ty, msg. repeat split; assumption.
  - repeat split.
Qed.

Lemma sending_valid (r : Request) (k : Continuation) (w : World) :
  valid_request r -> one_of_four w (sending r k w).
Proof.
  intros Hr. right. right. left.
  destruct (sending_frame r k w) as (Hreq & Hfl & Hl & Ha & Ht & _).
  split; [split; assumption |].
  split; [exact Hl |]. exists r, k. repeat split; assumption.
Qed.

(** However its request ends, a resumed handler lets no exception out,
    shows one proper notification and clears [loading]. *)
Lemma continue_shows (k : Continuation) (o : Outcome) (w : World) :
  let w' := exec (continue k o) w in
  fst (continue k o w) = Normal tt /\
  clock w' = clock w /\ shows w w' /\
  loading (state w') = false /\ inflight w' = inflight w /\
  requests w' = requests w.
Proof.
  destruct k as [file | |]; outcome_cases o;
    (split; [reflexivity |]; split; [reflexivity |];
     split;
     [ split; [reflexivity |];
       do 2 eexists; split; [reflexivity |];
       split;
       [ first [left; reflexivity | right; reflexivity]
       | first [discriminate | apply or_else_nonempty; discriminate] ]
     | settled ]).
Qed.

Lemma resumed_none (i : nat) (w : World) :
  nth_error (inflight w) i = None -> inflight (resumed i w) = inflight w.
Proof.
  intros H. apply nth_error_None in H.
  change (firstn i (inflight w) ++ skipn (S i) (inflight w) = inflight w).
  rewrite firstn_all2 by exact H. rewrite skipn_all2 by lia.
  apply app_nil_r.
Qed.

Lemma dispatch_one_of_four (w : World) (e : Event) :
  (forall ms, e <> Elapse ms) ->
  let w' := exec (dispatch e (state w)) w in
  clock w' = clock w /\ one_of_four w w'.
Proof.
  intros Hne.
  assert (Hquiet : forall w', timers w' = timers w ->
            alert (state w') = alert (state w) ->
            loading (state w') = loading (state w) ->
            inflight w' = inflight w -> effects w' = effects w ->
            one_of_four w w').
  { intros w' Ht Ha Hl Hi He. left.
    unfold keeps_alert, keeps_flight, requests. rewrite He.
    repeat split; assumption. }
  destruct e; try (split; [reflexivity | apply Hquiet; reflexivity]).
  - (* FileChange *)
    destruct files0 as [file |];
      [| split; [reflexivity | apply Hquiet; reflexivity]].
    unfold dispatch, exec. rewrite upload_outcome. simpl snd.
    destruct (endsWith (name file) (lit ".txt")) eqn:E.
    + split; [reflexivity | apply sending_valid; exact E].
    + split; [reflexivity |]. right. left.
      apply notified_shows; [left; reflexivity | discriminate].
  - (* GenerateClick *)
    unfold dispatch, exec. rewrite handleGenerateSummary_outcome. simpl snd.
    destruct (blank (transcript (state w))) eqn:Et;
      [| destruct (blank (customPrompt (state w))) eqn:Ep].
    + split; [reflexivity |]. right. left.
      apply notified_shows; [left; reflexivity | discriminate].
    + split; [reflexivity |]. right. left.
      apply notified_shows; [left; reflexivity | discriminate].
    + split; [reflexivity | apply sending_valid; split; assumption].
  - (* EditSaveClick *)
    unfold dispatch.
    destruct (editMode (state w));
      [| split; [reflexivity | apply Hquiet; reflexivity]].
    unfold exec. rewrite update_outcome. simpl snd.
    destruct (truthy (summaryId (state w))) eqn:Ei; simpl;
      [destruct (blank (summary (state w))) eqn:Es |];
      try (split; [reflexivity | apply Hquiet; reflexivity]).
    split; [reflexivity |]. apply sending_valid. split; [| exact Es].
    apply truthy_true_iff. exact Ei.
  - (* SendClick *)
    unfold dispatch, exec. rewrite handleSendEmail_outcome.
    destruct (negb (truthy (trim (summary (state w)))));
      [| destruct (editMode (state w));
         [| destruct (JS.encodeURIComponent (mail_body (summary (state w))))]];
      simpl snd.
    + split; [reflexivity |]. right. left.
      apply notified_shows; [left; reflexivity | discriminate].
    + split; [reflexivity |]. right. left.
      apply notified_shows; [left; reflexivity | discriminate].
    + split; [reflexivity |]. right. left.
      split.
      * split; [reflexivity |]. do 2 eexists.
        split; [reflexivity |]. split; [right; reflexivity | discriminate].
      * unfold keeps_flight, requests. simpl.
        rewrite flat_map_app, app_nil_r. repeat split.
    + split; [reflexivity | apply Hquiet; reflexivity].
  - (* Settle *)
    rewrite settle_outcome.
    destruct (nth_error (inflight w) i) as [k |] eqn:Ek.
    + destruct (continue_shows k o (resumed i w))
        as (_ & Hc & Hs & Hl & Hi & Hr).
      split; [exact Hc |]. right. right. right.
      split; [exact Hs |]. split; [exact Hl |]. split; [exact Hr |].
      exists i. split; [| exact Hi].
      apply nth_error_Some. congruence.
    + split; [reflexivity |].
      apply Hquiet; try reflexivity. apply resumed_none. exact Ek.
  - exfalso. apply (Hne ms). reflexivity.
Qed.


(** ** Invariants of the states the component reaches *)

Lemma step_cases (w w' : World) (e : Event) :
  step w e = Some w' ->
  (exists ms, e = Elapse ms /\ w' = exec (elapse ms) w) \/
  (clock w' = clock w /\ one_of_four w w').
Proof.
  unfold step. intros Hstep.
  destruct (enabled w e); [| discriminate]. injection Hstep as <-.
  assert (Hcases : (exists ms, e = Elapse ms) \/ (forall ms, e <> Elapse ms)).
  { destruct e; try (right; intros; discriminate). left. eexists. reflexivity. }
  destruct Hcases as [[ms ->] | Hne].
  - left. exists ms. split; reflexivity.
  - right. apply dispatch_one_of_four. exact Hne.
Qed.

Lemma run_invariant (P : World -> Prop) :
  (forall w e w', P w -> step w e = Some w' -> P w') ->
  forall es w w', P w -> run w es = Some w' -> P w'.
Proof.
  intros Hstep. induction es as [| e es IH]; intros w w' Hw Hrun;
    simpl in Hrun.
  - injection Hrun as <-. exact Hw.
  - destruct (step w e) as [w1 |] eqn:E; [| discriminate].
    apply (IH w1 w'); [apply (Hstep w e w1 Hw E) | exact Hrun].
Qed.

Lemma elapse_requests (ms : N) (w : World) :
  requests (exec (elapse ms) w) = requests w.
Proof. unfold requests. rewrite elapse_spec. reflexivity. Qed.

Lemma step_valid_requests (w w' : World) (e : Event) :
  Forall valid_request (requests w) ->
  step w e = Some w' ->
  Forall valid_request (requests w').
Proof.
  intros Hinv Hstep.
  destruct (step_cases w w' e Hstep) as [(ms & _ & ->) | [_ Hfour]].
  - rewrite elapse_requests. exact Hinv.
  - destruct Hfour as [[_ (_ & _ & Hr)] | [[_ (_ & _ & Hr)]
        | [(_ & _ & r & k & Hv & Hr & _) | (_ & _ & Hr & _)]]];
      rewrite Hr; try exact Hinv.
    apply Forall_app. split; [exact Hinv | constructor; [exact Hv | constructor]].
Qed.

(** X6: every request the component ever sends is one its validations
    accept: an upload carries a file whose name ends in [.txt], a generate
    request a transcript and an instruction that are not blank, an update
    request a non-empty id and a summary that is not blank. *)
Theorem requests_are_valid (es : list Event) (w : World) :
  run boot es = Some w -> Forall valid_request (requests w).
Proof.
  apply (run_invariant (fun w => Forall valid_request (requests w))).
  - intros w0 e w1. apply step_valid_requests.
  - constructor.
Qed.

Lemma requests_are_valid_witness :
  Forall valid_request (requests reviewing).
Proof.
  apply (requests_are_valid
           (editing_events
            ++ [EditSaveClick; Settle 0 (Fulfilled true update_reply)])).
  vm_compute. reflexivity.
Defined.

Lemma step_loading_pending (w w' : World) (e : Event) :
  (loading (state w) = true -> inflight w <> []) ->
  step w e = Some w' ->
  loading (state w') = true -> inflight w' <> [].
Proof.
  intros Hinv Hstep Hl.
  destruct (step_cases w w' e Hstep) as [(ms & _ & ->) | [_ Hfour]].
  - destruct (elapse_flight ms w) as [Hl' Hi]. rewrite Hi.
    apply Hinv. rewrite <- Hl'. exact Hl.
  - destruct Hfour as [[_ (Hl' & Hi & _)] | [[_ (Hl' & Hi & _)]
        | [(_ & _ & r & k & _ & _ & Hi) | (_ & Hl' & _)]]].
    + rewrite Hi. apply Hinv. rewrite <- Hl'. exact Hl.
    + rewrite Hi. apply Hinv. rewrite <- Hl'. exact Hl.
    + rewrite Hi. intros H. apply app_eq_nil in H. destruct H; discriminate.
    + congruence.
Qed.

(** X7: [loading] is never left set without a request to clear it: in
    every state the component reaches with [loading] set a request is
    pending, and the settling of any pending request, whatever its
    outcome, clears [loading]. *)
Theorem loading_has_a_pending_request (es : list Event) (w : World) :
  run boot es = Some w ->
  loading (state w) = true ->
  inflight w <> [] /\
  forall i o w', step w (Settle i o) = Some w' -> loading (state w') = false.
Proof.
  intros Hrun Hl. split.
  - revert Hl.
    apply (run_invariant
             (fun w => loading (state w) = true -> inflight w <> [])
             (fun w0 e w1 => step_loading_pending w0 w1 e) es boot w);
      [discriminate | exact Hrun].
  - intros i o w' Hstep. unfold step in Hstep.
    destruct (enabled w (Settle i o)) eqn:Hen; [| discriminate].
    assert (Hw' : w' = exec (dispatch (Settle i o) (state w)) w)
      by congruence.
    rewrite Hw', settle_outcome.
    simpl in Hen. apply Nat.ltb_lt, nth_error_Some in Hen.
    destruct (nth_error (inflight w) i) as [k |]; [| congruence].
    apply (continue_shows k o (resumed i w)).
Qed.

Lemma loading_has_a_pending_request_witness :
  inflight generating <> [].
Proof.
  apply (loading_has_a_pending_request generating_events generating);
    vm_compute; reflexivity.
Defined.

(** X8: the settling of a pending request always goes through: whatever
    the outcome, no exception leaves the handler, exactly that request
    stops being pending, no request is sent, one proper notification
    (error or success, with a text) is shown with its timer set, and
    [loading] is cleared. *)
Theorem settle_always_completes (w : World) (i : nat) (o : Outcome) :
  i < length (inflight w) ->
  exists w',
    step w (Settle i o) = Some w' /\
    fst (dispatch (Settle i o) (state w) w) = Normal tt /\
    inflight w' = firstn i (inflight w) ++ skipn (S i) (inflight w) /\
    S (length (inflight w')) = length (inflight w) /\
    requests w' = requests w /\
    shows w w' /\
    loading (state w') = false.
Proof.
  intros Hi. eexists. split.
  { unfold step. simpl enabled.
    rewrite (proj2 (Nat.ltb_lt _ _) Hi). reflexivity. }
  rewrite settle_outcome.
  pose proof (proj2 (nth_error_Some (inflight w) i) Hi) as Hk.
  destruct (nth_error (inflight w) i) as [k |] eqn:Ek; [| congruence].
  destruct (continue_shows k o (resumed i w)) as (Hn & _ & Hs & Hl & Hfl & Hr).
  split.
  { unfold dispatch, bind, resume. rewrite Ek. exact Hn. }
  split; [exact Hfl |]. split.
  { rewrite Hfl. change (inflight (resumed i w))
      with (firstn i (inflight w) ++ skipn (S i) (inflight w)).
    rewrite length_app, length_firstn, length_skipn. lia. }
  split; [exact Hr |]. split; [exact Hs | exact Hl].
Qed.

Lemma settle_always_completes_witness :
  exists w',
    step generating (Settle 0 (Rejected {| error_message := lit "" |}))
      = Some w' /\
    loading (state w') = false /\ inflight w' = [].
Proof.
  assert (Hi : 0 < length (inflight generating)) by (vm_compute; lia).
  destruct (settle_always_completes generating 0
              (Rejected {| error_message := lit "" |}) Hi)
    as (w' & Hstep & _ & Hfl & _ & _ & _ & Hl).
  exists w'. split; [exact Hstep |]. split; [exact Hl |].
  rewrite Hfl. vm_compute. reflexivity.
Defined.

Lemma none_due (now : N) (l : list N) :
  existsb (fun t => (t <=? now)%N) l = false ->
  filter (fun t => (now <? t)%N) l = l.
Proof.
  induction l as [| t l IH]; simpl; [reflexivity |].
  intros H. apply orb_false_iff in H. destruct H as [Ht Hl].
  apply N.leb_gt in Ht. rewrite (proj2 (N.ltb_lt _ _) Ht), (IH Hl).
  reflexivity.
Qed.

Lemma step_timers_bounded (w w' : World) (e : Event) :
  timers_bounded w -> step w e = Some w' -> timers_bounded w'.
Proof.
  unfold timers_bounded. intros [Hb Hn] Hstep.
  destruct (step_cases w w' e Hstep) as [(ms & _ & ->) | [Hc Hfour]].
  - rewrite elapse_spec. simpl. split.
    + apply Forall_forall. intros t Hin. apply filter_In in Hin.
      destruct Hin as [Hin Hlt]. apply N.ltb_lt in Hlt.
      rewrite Forall_forall in Hb. specialize (Hb t Hin). lia.
    + intros Hnil.
      destruct (existsb (fun t => (t <=? clock w + ms)%N) (timers w)) eqn:E;
        [reflexivity |].
      apply Hn. rewrite <- Hnil. symmetry. apply none_due. exact E.
  - assert (Hkeep : keeps_alert w w' -> 
              Forall (fun t => (clock w' < t <= clock w' + 4000)%N) (timers w') /\
              (timers w' = [] -> alert (state w') = no_alert)).
    { intros [Ht Ha]. rewrite Hc, Ht, Ha. split; assumption. }
    assert (Hshow : shows w w' ->
              Forall (fun t => (clock w' < t <= clock w' + 4000)%N) (timers w') /\
              (timers w' = [] -> alert (state w') = no_alert)).
    { intros [Ht _]. rewrite Hc, Ht. split.
      - apply Forall_app. split; [exact Hb |].
        constructor; [lia | constructor].
      - intros H. apply app_eq_nil in H. destruct H; discriminate. }
    destruct Hfour as [[Hk _] | [[Hs _] | [[Hk _] | [Hs _]]]]; auto.
Qed.

(** X9: no notification outlives its 4000 ms: in every state the
    component reaches, once 4000 ms or more pass without another event
    the notification is down and no timer is left pending. *)
Theorem notifications_all_expire (es : list Event) (w : World) (ms : N) :
  run boot es = Some w ->
  (4000 <= ms)%N ->
  alert (state (exec (elapse ms) w)) = no_alert /\
  timers (exec (elapse ms) w) = [].
Proof.
  intros Hrun Hms.
  assert (Hinv : timers_bounded w).
  { apply (run_invariant timers_bounded
             (fun w0 e w1 H => step_timers_bounded w0 w1 e H) es boot w);
      [| exact Hrun].
    split; [constructor | reflexivity]. }
  destruct Hinv as [Hb Hn]. rewrite elapse_spec. simpl.
  assert (Hall : forall t, In t (timers w) -> (t <= clock w + ms)%N).
  { intros t Hin. rewrite Forall_forall in Hb. specialize (Hb t Hin). lia. }
  split.
  - destruct (timers w) as [| t l] eqn:Et.
    + simpl. apply Hn. reflexivity.
    + simpl. rewrite (proj2 (N.leb_le _ _) (Hall t (or_introl eq_refl))).
      reflexivity.
  - clear Hn Hb. induction (timers w) as [| t l IH]; [reflexivity |].
    simpl. assert (Ht : (t <= clock w + ms)%N) by (apply Hall; left; reflexivity).
    apply N.ltb_ge in Ht. rewrite Ht. apply IH.
    intros t' Hin. apply Hall. right. exact Hin.
Qed.

Lemma notifications_all_expire_witness :
  alert (state (exec (elapse 4000%N) second_refusal)) = no_alert /\
  timers (exec (elapse 4000%N) second_refusal) = [].
Proof.
  apply (notifications_all_expire (first_refusal_events ++ [GenerateClick])).
  - vm_compute. reflexivity.
  - discriminate.
Defined.

Lemma step_proper_alert (w w' : World) (e : Event) :
  proper_alert (alert (state w)) -> step w e = Some w' ->
  proper_alert (alert (state w')).
Proof.
  intros Hinv Hstep.
  destruct (step_cases w w' e Hstep) as [(ms & _ & ->) | [_ Hfour]].
  - rewrite elapse_spec. simpl.
    destruct (existsb (fun t => (t <=? clock w + ms)%N) (timers w));
      [left; reflexivity | exact Hinv].
  - destruct Hfour as [[[_ Ha] _] | [[[_ Hs] _] | [[[_ Ha] _] | [[_ Hs] _]]]];
      try (rewrite Ha; exact Hinv); right; exact Hs.
Qed.

(** X10: the component never shows an empty or untyped notification: in
    every state it reaches the alert is either down, or up with type
    [error] or [success] and a text that is not empty (the fallback texts
    see to that when the server sends no detail). *)
Theorem alert_is_proper (es : list Event) (w : World) :
  run boot es = Some w -> proper_alert (alert (state w)).
Proof.
  apply (run_invariant (fun w => proper_alert (alert (state w)))
           (fun w0 e w1 H => step_proper_alert w0 w1 e H) es boot w).
  left. reflexivity.
Qed.

Lemma alert_is_proper_witness :
  proper_alert (alert (state second_refusal)).
Proof.
  apply (alert_is_proper (first_refusal_events ++ [GenerateClick])).
  vm_compute. reflexivity.
Defined.


(** ** When sending throws *)

Lemma encodeURIComponent_prefix_len (n : nat) :
  forall a b a',
    length a <= n ->
    JS.encodeURIComponent a = Some a' ->
    JS.encodeURIComponent (a ++ b)
      = option_map (fun r => a' ++ r) (JS.encodeURIComponent b).
Proof.
  induction n as [| n IH]; intros a b a' Hlen Ha.
  - destruct a; [| simpl in Hlen; lia].
    simpl in Ha. injection Ha as <-. simpl.
    destruct (JS.encodeURIComponent b); reflexivity.
  - destruct a as [| c rest].
    + simpl in Ha. injection Ha as <-. simpl.
      destruct (JS.encodeURIComponent b); reflexivity.
    + simpl in Hlen. simpl in Ha |- *.
      destruct (uri_unescaped c).
      * destruct (JS.encodeURIComponent rest) as [r |] eqn:Er; [| discriminate].
        simpl in Ha. injection Ha as <-.
        rewrite (IH rest b r) by (lia || assumption).
        destruct (JS.encodeURIComponent b); reflexivity.
      * destruct (is_trailing_surrogate c); [discriminate |].
        destruct (is_leading_surrogate c).
        -- destruct rest as [| d rest']; [discriminate |].
           simpl in Hlen |- *.
           destruct (is_trailing_surrogate d); [| discriminate].
           destruct (JS.encodeURIComponent rest') as [r |] eqn:Er;
             [| discriminate].
           simpl in Ha. injection Ha as <-.
           rewrite (IH rest' b r) by (lia || assumption).
           destruct (JS.encodeURIComponent b); simpl; [| reflexivity].
           rewrite app_assoc. reflexivity.
        -- destruct (JS.encodeURIComponent rest) as [r |] eqn:Er;
             [| discriminate].
           simpl in Ha. injection Ha as <-.
           rewrite (IH rest b r) by (lia || assumption).
           destruct (JS.encodeURIComponent b); simpl; [| reflexivity].
           rewrite app_assoc. reflexivity.
Qed.

(** A string that does not encode does not start encoding when text that
    begins with anything but a trailing surrogate is put after it. *)
Lemma encodeURIComponent_suffix_len (n : nat) (c : N) (tail : jsstring) :
  is_trailing_surrogate c = false ->
  forall s,
    length s <= n ->
    JS.encodeURIComponent s = None ->
    JS.encodeURIComponent (s ++ c :: tail) = None.
Proof.
  intros Hc. induction n as [| n IH]; intros s Hlen Hs.
  - destruct s; [discriminate | simpl in Hlen; lia].
  - destruct s as [| x rest]; [discriminate |].
    simpl in Hlen. simpl in Hs |- *.
    destruct (uri_unescaped x).
    + destruct (JS.encodeURIComponent rest) eqn:Er; [discriminate |].
      rewrite (IH rest) by (lia || assumption). reflexivity.
    + destruct (is_trailing_surrogate x); [reflexivity |].
      destruct (is_leading_surrogate x).
      * destruct rest as [| d rest']; simpl.
        -- rewrite Hc. reflexivity.
        -- simpl in Hlen.
           destruct (is_trailing_surrogate d); [| reflexivity].
           destruct (JS.encodeURIComponent rest') eqn:Er; [discriminate |].
           rewrite (IH rest') by (lia || assumption). reflexivity.
      * destruct (JS.encodeURIComponent rest) eqn:Er; [discriminate |].
        rewrite (IH rest) by (lia || assumption). reflexivity.
Qed.

(** The mail body encodes exactly when the summary does. *)
Lemma mail_body_encodes_iff (s : jsstring) :
  JS.encodeURIComponent (mail_body s) = None
  <-> JS.encodeURIComponent s = None.
Proof.
  split.
  - intros H. destruct (JS.encodeURIComponent s) as [s' |] eqn:Es;
      [| reflexivity].
    rewrite (encodeURIComponent_mail_body s s' Es) in H. discriminate.
  - intros H. unfold mail_body.
    change (JS.encodeURIComponent
              ((lit "Hi," ++ newline ++ newline ++
                lit "Please find the meeting summary below:"
                ++ newline ++ newline)
               ++ s ++ 10%N :: (newline ++ lit "Best regards")) = None).
    rewrite (encodeURIComponent_prefix_len _ _ _
               (lit "Hi%2C%0A%0APlease%20find%20the%20meeting%20summary%20below%3A%0A%0A")
               (Nat.le_refl _)) by (vm_compute; reflexivity).
    rewrite (encodeURIComponent_suffix_len (length s) 10%N _ eq_refl s
               (Nat.le_refl _) H).
    reflexivity.
Qed.

(** X11: on the summary of a session, a string, [handleSendEmail] ends
    in an exception exactly when the summary is not blank, [editMode] is
    not set and [encodeURIComponent] refuses the summary, which holds an
    unpaired surrogate; and then nothing at all has happened: no mail
    link, no notification, no state change. *)
Theorem send_throws_iff (w : World) :
  ((exists err, fst (handleSendEmail (state w) w) = Throw err)
   <->
   blank (summary (state w)) = false /\
   editMode (state w) = false /\
   JS.encodeURIComponent (summary (state w)) = None) /\
  (forall err,
     fst (handleSendEmail (state w) w) = Throw err ->
     exec (handleSendEmail (state w)) w = w).
Proof.
  unfold exec. rewrite handleSendEmail_outcome, truthy_trim, negb_involutive.
  destruct (blank (summary (state w))).
  { split; [split; [intros [err H]; discriminate H
                   | intros (H & _); discriminate H]
           | intros err H; discriminate H]. }
  destruct (editMode (state w)).
  { split; [split; [intros [err H]; discriminate H
                   | intros (_ & H & _); discriminate H]
           | intros err H; discriminate H]. }
  destruct (JS.encodeURIComponent (mail_body (summary (state w)))) eqn:E.
  - split; [split; [intros [err H]; discriminate H |]
           | intros err H; discriminate H].
    intros (_ & _ & H).
    apply (proj2 (mail_body_encodes_iff _)) in H. congruence.
  - apply (proj1 (mail_body_encodes_iff _)) in E.
    split; [| reflexivity].
    split.
    + intros _. repeat split. exact E.
    + intros _. eexists. reflexivity.
Qed.

Lemma send_throws_iff_witness :
  (exists err,
     fst (handleSendEmail (state broken_summary) broken_summary) = Throw err) /\
  exec (handleSendEmail (state broken_summary)) broken_summary
    = broken_summary.
Proof.
  assert (H : exists err,
            fst (handleSendEmail (state broken_summary) broken_summary)
              = Throw err).
  { apply (proj2 (proj1 (send_throws_iff broken_summary))).
    repeat split; vm_compute; reflexivity. }
  split; [exact H |].
  destruct H as [err H].
  exact (proj2 (send_throws_iff broken_summary) err H).
Defined.

(** ** The mail link *)

Lemma hex_digit_unescaped (n : N) :
  (n < 16)%N -> uri_unescaped (hex_digit n) = true.
Proof.
  intros H. destruct n as [| p]; [reflexivity |].
  do 4 (destruct p as [p | p |]; try reflexivity); exfalso; lia.
Qed.

Lemma percent_escape_safe (octet : N) :
  (octet < 256)%N -> Forall url_safe (percent_escape octet).
Proof.
  intros H. unfold percent_escape.
  constructor; [right; reflexivity |].
  constructor.
  { left. apply hex_digit_unescaped.
    apply N.Div0.div_lt_upper_bound. exact H. }
  constructor; [| constructor].
  left. apply hex_digit_unescaped. apply N.mod_lt. discriminate.
Qed.

Lemma utf8_octets_bytes (cp : N) :
  (cp < 1114112)%N -> Forall (fun o => (o < 256)%N) (utf8_octets cp).
Proof.
  intros H. unfold utf8_octets.
  assert (Hm : forall x, (128 + x mod 64 < 256)%N).
  { intros x. pose proof (N.mod_lt x 64). lia. }
  destruct (N.ltb_spec cp 128); [repeat constructor; lia |].
  destruct (N.ltb_spec cp 2048).
  { repeat constructor; try apply Hm.
    assert (cp / 64 < 32)%N by (apply N.Div0.div_lt_upper_bound; lia). lia. }
  destruct (N.ltb_spec cp 65536).
  { repeat constructor; try apply Hm.
    assert (cp / 4096 < 16)%N by (apply N.Div0.div_lt_upper_bound; lia). lia. }
  repeat constructor; try apply Hm.
  assert (cp / 262144 < 5)%N by (apply N.Div0.div_lt_upper_bound; lia). lia.
Qed.

Lemma escape_code_point_safe (cp : N) :
  (cp < 1114112)%N -> Forall url_safe (escape_code_point cp).
Proof.
  intros H. unfold escape_code_point.
  pose proof (utf8_octets_bytes cp H) as Hb.
  induction Hb as [| o l Ho _ IH]; [constructor |].
  change (Forall url_safe (percent_escape o ++ flat_map percent_escape l)).
  apply Forall_app. split; [apply percent_escape_safe; exact Ho | exact IH].
Qed.

Lemma surrogate_pair_bound (lead trail : N) :
  is_leading_surrogate lead = true -> is_trailing_surrogate trail = true ->
  (surrogate_pair_to_code_point lead trail < 1114112)%N.
Proof.
  unfold is_leading_surrogate, is_trailing_surrogate, in_range,
    surrogate_pair_to_code_point.
  rewrite !andb_true_iff, !N.leb_le. lia.
Qed.

(** The encoding of a string of code units holds nothing but unreserved
    characters and percent escapes. *)
Lemma encodeURIComponent_safe_len (n : nat) :
  forall s r,
    length s <= n ->
    Forall (fun c => (c < 65536)%N) s ->
    JS.encodeURIComponent s = Some r ->
    Forall url_safe r.
Proof.
  induction n as [| n IH]; intros s r Hlen Hs Hr.
  - destruct s; [| simpl in Hlen; lia].
    simpl in Hr. injection Hr as <-. constructor.
  - destruct s as [| c rest].
    + simpl in Hr. injection Hr as <-. constructor.
    + simpl in Hlen. inversion Hs as [| c0 l0 Hc Hrest]; subst.
      simpl in Hr. destruct (uri_unescaped c) eqn:Eu.
      * destruct (JS.encodeURIComponent rest) as [r' |] eqn:Er;
          [| discriminate].
        simpl in Hr. injection Hr as <-.
        constructor; [left; exact Eu |].
        apply (IH rest r'); [lia | exact Hrest | exact Er].
      * destruct (is_trailing_surrogate c); [discriminate |].
        destruct (is_leading_surrogate c) eqn:El.
        -- destruct rest as [| d rest']; [discriminate |].
           simpl in Hlen. inversion Hrest as [| d0 l1 Hd Hrest']; subst.
           destruct (is_trailing_surrogate d) eqn:Et; [| discriminate].
           destruct (JS.encodeURIComponent rest') as [r' |] eqn:Er;
             [| discriminate].
           simpl in Hr. injection Hr as <-.
           apply Forall_app. split.
           ++ apply escape_code_point_safe, surrogate_pair_bound; assumption.
           ++ apply (IH rest' r'); [lia | exact Hrest' | exact Er].
        -- destruct (JS.encodeURIComponent rest) as [r' |] eqn:Er;
             [| discriminate].
           simpl in Hr. injection Hr as <-.
           apply Forall_app. split.
           ++ apply escape_code_point_safe. lia.
           ++ apply (IH rest r'); [lia | exact Hrest | exact Er].
Qed.

Lemma lit_code_units (s : string) : Forall (fun c => (c < 65536)%N) (lit s).
Proof.
  unfold lit. induction s as [| a s IH]; simpl; [constructor |].
  constructor; [| exact IH].
  pose proof (N_ascii_bounded a). lia.
Qed.

(** X12: the summary cannot reach outside the body of the mail link: for a
    summary of UTF-16 code units, the link [handleSendEmail] opens is
    [mailto:], the recipients as typed, the fixed subject, and a body made
    only of unreserved characters and percent escapes, so with no [&],
    [?], [#], space or line break in it. *)
Theorem mail_body_is_percent_encoded (w : World) (href : jsstring) :
  Forall (fun c => (c < 65536)%N) (summary (state w)) ->
  dispatches (exec (handleSendEmail (state w)) w) = dispatches w ++ [href] ->
  exists body,
    href = lit "mailto:" ++ recipientEmails (state w)
           ++ lit "?subject=Meeting%20Summary&body=" ++ body /\
    Forall url_safe body /\
    forall c, In c body -> ~ In c (lit "&?# =" ++ newline).
Proof.
  intros Hs Hd. unfold exec in Hd. rewrite handleSendEmail_outcome in Hd.
  assert (Hno : dispatches w <> dispatches w ++ [href]).
  { intros H. symmetry in H. exact (app_one_neq _ _ H). }
  destruct (negb (truthy (trim (summary (state w)))));
    [exfalso; exact (Hno Hd) |].
  destruct (editMode (state w)); [exfalso; exact (Hno Hd) |].
  destruct (JS.encodeURIComponent (mail_body (summary (state w))))
    as [body |] eqn:E; [| exfalso; exact (Hno Hd)].
  unfold dispatches in Hd. simpl in Hd. rewrite flat_map_app in Hd.
  apply app_inv_head in Hd. simpl in Hd. injection Hd as <-.
  assert (Hsafe : Forall url_safe body).
  { apply (encodeURIComponent_safe_len (length (mail_body (summary (state w))))
             (mail_body (summary (state w))) body (Nat.le_refl _));
      [| exact E].
    unfold mail_body, newline.
    repeat (apply Forall_app; split);
      first [apply lit_code_units | exact Hs | repeat constructor]. }
  exists body. split; [reflexivity |]. split; [exact Hsafe |].
  intros c Hin Hbad. rewrite Forall_forall in Hsafe.
  specialize (Hsafe c Hin).
  simpl in Hbad.
  destruct Hbad as [<- | [<- | [<- | [<- | [<- | [<- | []]]]]]];
    destruct Hsafe as [H | H]; discriminate H.
Qed.

Lemma mail_body_is_percent_encoded_witness :
  exists body,
    lit "mailto:?subject=Meeting%20Summary&body=Hi%2C%0A%0APlease%20find%20the%20meeting%20summary%20below%3A%0A%0Aedited%20text%0A%0ABest%20regards"
      = lit "mailto:" ++ recipientEmails (state reviewing)
        ++ lit "?subject=Meeting%20Summary&body=" ++ body /\
    Forall url_safe body.
Proof.
  destruct (mail_body_is_percent_encoded reviewing
    (lit "mailto:?subject=Meeting%20Summary&body=Hi%2C%0A%0APlease%20find%20the%20meeting%20summary%20below%3A%0A%0Aedited%20text%0A%0ABest%20regards"))
    as (body & Hb & Hsafe & _).
  - assert (E : summary (state reviewing) = lit "edited text")
      by (vm_compute; reflexivity).
    rewrite E. apply lit_code_units.
  - vm_compute. reflexivity.
  - exists body. split; assumption.
Defined.

(** ** Operations in sequence *)

Lemma run_cons (w : World) (e : Event) (es : list Event) :
  run w (e :: es) =
    match step w e with Some w' => run w' es | None => None end.
Proof. reflexivity. Qed.

Lemma step_enabled (w : World) (e : Event) :
  enabled w e = true -> step w e = Some (exec (dispatch e (state w)) w).
Proof. unfold step. intros ->. reflexivity. Qed.

Lemma settle_pending (w : World) (i : nat) (k : Continuation) (o : Outcome) :
  nth_error (inflight w) i = Some k ->
  step w (Settle i o) = Some (exec (continue k o) (resumed i w)).
Proof.
  intros Hk. rewrite step_enabled.
  - rewrite settle_outcome, Hk. reflexivity.
  - simpl. apply Nat.ltb_lt, nth_error_Some. congruence.
Qed.

Lemma generate_success (data : Data) (w : World) :
  data_success data = true ->
  let w' := exec (continue AfterGenerate (Fulfilled true data)) w in
  summary (state w') = data_summary data /\
  summaryId (state w') = data_summary_id data /\
  editMode (state w') = true /\ loading (state w') = false /\
  transcript (state w') = transcript (state w) /\
  customPrompt (state w') = customPrompt (state w) /\
  effects w' = effects w /\ inflight w' = inflight w.
Proof.
  intros E. cbv [continue handleGenerateSummary_settled await].
  rewrite bind_ret. cbv beta iota. rewrite E. repeat split.
Qed.

Lemma upload_success (file : File) (data : Data) (w : World) :
  data_success data = true ->
  let w' := exec (continue (AfterUpload file) (Fulfilled true data)) w in
  transcript (state w') = data_transcript data /\
  fileName (state w') = name file /\ loading (state w') = false /\
  effects w' = effects w /\ inflight w' = inflight w.
Proof.
  intros E. cbv [continue handleFileUpload_settled await].
  rewrite bind_ret. cbv beta iota. rewrite E. repeat split.
Qed.

Lemma update_success (data : Data) (w : World) :
  data_success data = true ->
  let w' := exec (continue AfterUpdate (Fulfilled true data)) w in
  editMode (state w') = false /\ loading (state w') = false /\
  summary (state w') = summary (state w) /\
  recipientEmails (state w') = recipientEmails (state w) /\
  effects w' = effects w /\ inflight w' = inflight w.
Proof.
  intros E. cbv [continue handleUpdateSummary_settled await].
  rewrite bind_ret. cbv beta iota. rewrite E. repeat split.
Qed.

(** X13: a summary that has just been generated can be saved as it is:
    when a generate request succeeds with a summary that is not blank and
    an id that is not empty, the Save button is offered right away and a
    click on it sends one update request, with that id and that text. *)
Theorem generated_summary_can_be_saved (w : World) (i : nat) (data : Data) :
  nth_error (inflight w) i = Some AfterGenerate ->
  data_success data = true ->
  data_summary_id data <> lit "" ->
  blank (data_summary data) = false ->
  exists w',
    run w [Settle i (Fulfilled true data); EditSaveClick] = Some w' /\
    requests w' = requests w
                  ++ [UpdateSummary (data_summary_id data) (data_summary data)] /\
    loading (state w') = true /\
    summary (state w') = data_summary data /\
    editMode (state w') = true.
Proof.
  intros Hk Hok Hid Hs.
  pose proof (settle_pending w i AfterGenerate (Fulfilled true data) Hk) as H1.
  set (w1 := exec (continue AfterGenerate (Fulfilled true data)) (resumed i w))
    in H1.
  destruct (generate_success data (resumed i w) Hok)
    as (Hsum & Hsid & Hed & Hl & _ & _ & Heff & _).
  fold w1 in Hsum, Hsid, Hed, Hl, Heff.
  assert (H2 : step w1 EditSaveClick
               = Some (sending (UpdateSummary (data_summary_id data)
                                              (data_summary data))
                               AfterUpdate w1)).
  { rewrite step_enabled.
    - unfold dispatch, exec. rewrite Hed, update_outcome, Hsum, Hsid, Hs.
      rewrite (proj2 (truthy_true_iff _) Hid). reflexivity.
    - simpl. rewrite Hsum, Hl, (blank_truthy _ Hs). reflexivity. }
  eexists. split; [simpl; rewrite H1, H2; reflexivity |].
  destruct (sending_frame (UpdateSummary (data_summary_id data)
                                         (data_summary data))
                          AfterUpdate w1) as (Hr & _ & Hload & _).
  split.
  { rewrite Hr. unfold requests. rewrite Heff. reflexivity. }
  split; [exact Hload |].
  split; [exact Hsum | exact Hed].
Qed.

Lemma generated_summary_can_be_saved_witness :
  exists w',
    run generating [Settle 0 (Fulfilled true generate_reply); EditSaveClick]
      = Some w' /\
    loading (state w') = true.
Proof.
  destruct (generated_summary_can_be_saved generating 0 generate_reply)
    as (w' & Hrun & _ & Hl & _).
  - vm_compute. reflexivity.
  - reflexivity.
  - discriminate.
  - reflexivity.
  - exists w'. split; assumption.
Defined.

Lemma resumed_last (l : list Continuation) (k : Continuation) :
  nth_error (l ++ [k]) (length l) = Some k /\
  firstn (length l) (l ++ [k]) ++ skipn (S (length l)) (l ++ [k]) = l.
Proof.
  split.
  - rewrite nth_error_app2 by apply Nat.le_refl.
    rewrite Nat.sub_diag. reflexivity.
  - rewrite skipn_all2 by (rewrite length_app; simpl; lia).
    rewrite firstn_app, Nat.sub_diag, firstn_all. simpl.
    rewrite !app_nil_r. reflexivity.
Qed.

(** X14: saving and then sending goes through: from a state that is not
    loading, in edit mode, with a summary id, and a summary that is not
    blank and encodes, a click on Save, the success of the update and a
    click on Send are each offered in turn; together they send exactly one
    update request with the id and the summary, open exactly one mail
    link for that summary, and end out of edit mode and not loading. *)
Theorem save_then_send (w : World) (data : Data) (encoded : jsstring) :
  loading (state w) = false ->
  editMode (state w) = true ->
  summaryId (state w) <> lit "" ->
  blank (summary (state w)) = false ->
  data_success data = true ->
  JS.encodeURIComponent (summary (state w)) = Some encoded ->
  exists w',
    run w [ EditSaveClick;
            Settle (length (inflight w)) (Fulfilled true data);
            SendClick ] = Some w' /\
    requests w' = requests w
                  ++ [UpdateSummary (summaryId (state w)) (summary (state w))] /\
    dispatches w' = dispatches w
                    ++ [mailto (recipientEmails (state w)) encoded] /\
    editMode (state w') = false /\ loading (state w') = false /\
    summary (state w') = summary (state w) /\
    inflight w' = inflight w.
Proof.
  intros Hl Hed Hid Hs Hok Henc.
  set (r := UpdateSummary (summaryId (state w)) (summary (state w))).
  assert (H1 : step w EditSaveClick = Some (sending r AfterUpdate w)).
  { rewrite step_enabled.
    - unfold dispatch, exec. rewrite Hed, update_outcome, Hs.
      rewrite (proj2 (truthy_true_iff _) Hid). reflexivity.
    - simpl. rewrite Hl, (blank_truthy _ Hs). reflexivity. }
  set (w1 := sending r AfterUpdate w) in H1.
  destruct (resumed_last (inflight w) AfterUpdate) as [Hnth Hrest].
  assert (H2 : step w1 (Settle (length (inflight w)) (Fulfilled true data))
               = Some (exec (continue AfterUpdate (Fulfilled true data))
                            (resumed (length (inflight w)) w1))).
  { apply settle_pending. exact Hnth. }
  set (w0 := resumed (length (inflight w)) w1) in H2.
  destruct (update_success data w0 Hok) as (He2 & Hl2 & Hs2 & Hr2 & Heff2 & Hi2).
  set (w2 := exec (continue AfterUpdate (Fulfilled true data)) w0)
    in H2, He2, Hl2, Hs2, Hr2, Heff2, Hi2.
  change (summary (state w0)) with (summary (state w)) in Hs2.
  change (recipientEmails (state w0)) with (recipientEmails (state w)) in Hr2.
  change (effects w0) with (effects w ++ [Fetch r]) in Heff2.
  change (inflight w0)
    with (firstn (length (inflight w)) (inflight w ++ [AfterUpdate])
          ++ skipn (S (length (inflight w))) (inflight w ++ [AfterUpdate]))
    in Hi2.
  rewrite Hrest in Hi2.
  assert (H3 : step w2 SendClick
               = Some (exec (handleSendEmail (state w2)) w2)).
  { apply step_enabled. simpl. rewrite Hs2, He2, (blank_truthy _ Hs).
    reflexivity. }
  eexists. split; [simpl; rewrite H1, H2, H3; reflexivity |].
  unfold exec. rewrite handleSendEmail_outcome, truthy_trim, Hs2, Hs, He2, Hr2.
  rewrite (encodeURIComponent_mail_body _ _ Henc).
  unfold requests, dispatches. simpl. rewrite Heff2, !flat_map_app. simpl.
  rewrite !app_nil_r.
  repeat split; assumption.
Qed.

Lemma save_then_send_witness :
  exists w',
    run editing [ EditSaveClick; Settle 0 (Fulfilled true update_reply);
                  SendClick ] = Some w' /\
    dispatches w' = [mailto (lit "") (lit "edited%20text")].
Proof.
  destruct (save_then_send editing update_reply (lit "edited%20text"))
    as (w' & Hrun & _ & Hd & _).
  - vm_compute. reflexivity.
  - vm_compute. reflexivity.
  - vm_compute. discriminate.
  - vm_compute. reflexivity.
  - reflexivity.
  - vm_compute. reflexivity.
  - exists w'. split.
    + etransitivity; [| exact Hrun]. vm_compute. reflexivity.
    + etransitivity; [exact Hd |]. vm_compute. reflexivity.
Defined.

(** X15: Clear does not cancel a pending request.  When it is clicked
    while a generate request is pending and the request then succeeds,
    the summary, its id and the edit mode of the reply come up in the
    cleared session, over an empty transcript and instruction; when an
    upload was pending, its transcript and file name come back. *)
Theorem clear_does_not_cancel (w : World) (i : nat) (data : Data) :
  data_success data = true ->
  (nth_error (inflight w) i = Some AfterGenerate ->
   exists w',
     run w [ClearClick; Settle i (Fulfilled true data)] = Some w' /\
     summary (state w') = data_summary data /\
     summaryId (state w') = data_summary_id data /\
     editMode (state w') = true /\
     transcript (state w') = lit "" /\ customPrompt (state w') = lit "") /\
  (forall file,
   nth_error (inflight w) i = Some (AfterUpload file) ->
   exists w',
     run w [ClearClick; Settle i (Fulfilled true data)] = Some w' /\
     transcript (state w') = data_transcript data /\
     fileName (state w') = name file /\
     summary (state w') = lit "").
Proof.
  intros Hok.
  assert (H1 : step w ClearClick = Some (exec clearAll w)) by reflexivity.
  split.
  - intros Hk.
    pose proof (settle_pending (exec clearAll w) i AfterGenerate
                  (Fulfilled true data) Hk) as H2.
    destruct (generate_success data (resumed i (exec clearAll w)) Hok)
      as (Hs & Hi & He & _ & Ht & Hp & _).
    eexists. split; [rewrite run_cons, H1, run_cons, H2; reflexivity |].
    repeat split; assumption.
  - intros file Hk.
    pose proof (settle_pending (exec clearAll w) i (AfterUpload file)
                  (Fulfilled true data) Hk) as H2.
    destruct (upload_success file data (resumed i (exec clearAll w)) Hok)
      as (Ht & Hf & _).
    eexists. split; [rewrite run_cons, H1, run_cons, H2; reflexivity |].
    split; [exact Ht |]. split; [exact Hf |].
    cbv [continue handleFileUpload_settled await].
    rewrite bind_ret. cbv beta iota. rewrite Hok. reflexivity.
Qed.

Lemma clear_does_not_cancel_witness :
  exists w',
    run generating [ClearClick; Settle 0 (Fulfilled true generate_reply)]
      = Some w' /\
    summary (state w') = lit "- Ship v2" /\ transcript (state w') = lit "".
Proof.
  destruct (proj1 (clear_does_not_cancel generating 0 generate_reply eq_refl))
    as (w' & Hrun & Hs & _ & _ & Ht & _).
  - vm_compute. reflexivity.
  - exists w'. repeat split; assumption.
Defined.


(** ** What the buttons never lead to *)

(** X16: the Send button never leads to the unsaved-edits error: it is
    disabled in edit mode, so a click on it finds [handleSendEmail] past
    that check; the branch is only there for a call that does not come
    from the button. *)
Theorem send_click_never_unsaved_edits (w w' : World) :
  step w SendClick = Some w' ->
  editMode (state w) = false /\
  w' <> notified (lit "error") (lit "Please save your edits before sending") w.
Proof.
  unfold step. intros Hstep.
  destruct (enabled w SendClick) eqn:Hen; [| discriminate].
  assert (Hw' : w' = exec (dispatch SendClick (state w)) w) by congruence.
  clear Hstep. simpl in Hen. apply andb_true_iff in Hen.
  destruct Hen as [_ Hed]. apply negb_true_iff in Hed.
  split; [exact Hed |].
  rewrite Hw'. unfold dispatch, exec.
  rewrite handleSendEmail_outcome, Hed.
  destruct (negb (truthy (trim (summary (state w)))));
    [| destruct (JS.encodeURIComponent (mail_body (summary (state w))))];
    simpl snd; intros H.
  - apply (f_equal (fun x => message (alert (state x)))) in H.
    vm_compute in H. discriminate H.
  - apply (f_equal effects) in H. exact (app_one_neq _ _ H).
  - apply (f_equal timers) in H. symmetry in H. exact (app_one_neq _ _ H).
Qed.

Lemma send_click_never_unsaved_edits_witness :
  editMode (state reviewing) = false.
Proof.
  apply (send_click_never_unsaved_edits reviewing
           (exec (dispatch SendClick (state reviewing)) reviewing)).
  vm_compute. reflexivity.
Defined.

(** X17: there is no autosave and no silent traffic: over any sequence of
    typing, tab and template choices and clears, the component sends no
    request, opens no mail link, resumes or starts no handler, and leaves
    [loading], the notification and its timers as they were. *)
Theorem edits_send_nothing (es : list Event) :
  forall w w',
    forallb edits_only es = true ->
    run w es = Some w' ->
    requests w' = requests w /\ dispatches w' = dispatches w /\
    inflight w' = inflight w /\
    loading (state w') = loading (state w) /\
    alert (state w') = alert (state w) /\ timers w' = timers w /\
    clock w' = clock w.
Proof.
  induction es as [| e es IH]; intros w w' Hes Hrun.
  - simpl in Hrun. injection Hrun as <-. repeat split.
  - simpl in Hes. apply andb_true_iff in Hes. destruct Hes as [He Hes].
    rewrite run_cons in Hrun.
    destruct (step w e) as [w1 |] eqn:Hstep; [| discriminate].
    destruct (IH w1 w' Hes Hrun) as (Hr & Hd & Hi & Hl & Ha & Ht & Hc).
    assert (H1 : effects w1 = effects w /\ inflight w1 = inflight w /\
                 loading (state w1) = loading (state w) /\
                 alert (state w1) = alert (state w) /\
                 timers w1 = timers w /\ clock w1 = clock w).
    { unfold step in Hstep.
      destruct (enabled w e); [| discriminate]. injection Hstep as <-.
      destruct e; try discriminate He; repeat split. }
    destruct H1 as (He1 & Hi1 & Hl1 & Ha1 & Ht1 & Hc1).
    unfold requests, dispatches in *.
    rewrite Hr, Hd, Hi, Hl, Ha, Ht, Hc, He1, Hi1, Hl1, Ha1, Ht1, Hc1.
    repeat split.
Qed.

Lemma edits_send_nothing_witness :
  requests (exec (setRecipientEmails (lit "a@b.c"))
                 (exec (setSummary (lit "- Ship v3")) editing))
    = requests editing.
Proof.
  apply (edits_send_nothing
           [SummaryChange (lit "- Ship v3"); RecipientsChange (lit "a@b.c")]
           editing).
  - reflexivity.
  - vm_compute. reflexivity.
Defined.
